(** * build.py: template/config composition for a Discourse container

    A shallow embedding of [build.py] and the properties of its loader
    ([load_config]), its variable substitutor ([substitute]) and its
    command driver ([main]).

    Conventions of the embedding:
    - a Python [str] is a Rocq [string]; one [ascii] stands for one
      character (code points 0..255);
    - a value produced by [yaml.safe_load] is a [Py.value]: [None], a
      bool, an int, a str, a list or a dict (insertion ordered, so an
      association list with unique keys).  Floats, timestamps, binary
      scalars and sets are outside this fragment;
    - an uncaught Python exception is [Raise]/[Raised], [sys.exit(1)] is
      [Exited 1];
    - the outside world (files, the YAML library, the [docker] binary) is
      a record [world] of oracles; what the script does to it is a trace
      of [event]s. *)

From Stdlib Require Import ZArith NArith Ascii String List Lia.
From stdpp Require Import base option list strings gmap pretty.

Set Warnings "-register-all".

Local Open Scope Z_scope.
Local Open Scope list_scope.
Local Open Scope stdpp_scope.

(** ** Characters that cannot be written inside a literal *)

Definition nl : string := String (ascii_of_nat 10) "".
Definition dquote : ascii := ascii_of_nat 34.
Definition squote : ascii := ascii_of_nat 39.
Definition backslash : ascii := ascii_of_nat 92.

(** ** Exceptions and fallible results *)

Inductive exn : Type :=
| TypeError | AttributeError | KeyError | ValueError
| YAMLError | OSError | CalledProcessError.

Inductive result (A : Type) : Type :=
| Ok (a : A)
| Raise (e : exn).
Arguments Ok {A} a.
Arguments Raise {A} e.

#[global] Instance result_ret : MRet result := fun A a => Ok a.
#[global] Instance result_bind : MBind result := fun A B f r =>
  match r with
  | Ok a => f a
  | Raise e => Raise e
  end.

Definition is_Ok {A} (r : result A) : bool :=
  match r with Ok _ => true | Raise _ => false end.

(** [for x in xs: acc = body(acc, x)], stopping at the first exception. *)
Fixpoint for_each {A S} (xs : list A) (body : S → A → result S) (acc : S)
  : result S :=
  match xs with
  | [] => Ok acc
  | x :: xs' => acc' ← body acc x; for_each xs' body acc'
  end.

(** ** Strings *)

Module Str.

Fixpoint chars (s : string) : list ascii :=
  match s with
  | "" => []
  | String c s' => c :: chars s'
  end.

Fixpoint concat (ss : list string) : string :=
  match ss with
  | [] => ""
  | s :: ss' => s +:+ concat ss'
  end.

(** [sep.join(ss)] *)
Fixpoint join (sep : string) (ss : list string) : string :=
  match ss with
  | [] => ""
  | [s] => s
  | s :: ss' => s +:+ sep +:+ join sep ss'
  end.

(** [s.startswith(p)] *)
Fixpoint startswith (p s : string) : bool :=
  match p, s with
  | "", _ => true
  | String a p', String b s' => if ascii_dec a b then startswith p' s' else false
  | String _ _, "" => false
  end.

(** [p in s] for two strings *)
Fixpoint contains (p s : string) : bool :=
  startswith p s ||
  match s with
  | "" => false
  | String _ s' => contains p s'
  end.

Fixpoint drop (n : nat) (s : string) : string :=
  match n, s with
  | O, _ => s
  | S n', String _ s' => drop n' s'
  | S _, "" => ""
  end.

(** [s.replace(old, new)] for a non-empty [old]: scan from the left,
    replace each occurrence met and resume after it.  [fuel] bounds the
    number of scan steps; [replace] gives one more than the length. *)
Fixpoint replace_from (fuel : nat) (old new s : string) : string :=
  match fuel with
  | O => s
  | S fuel' =>
      match s with
      | "" => ""
      | String c s' =>
          if startswith old s
          then new +:+ replace_from fuel' old new (drop (String.length old) s)
          else String c (replace_from fuel' old new s')
      end
  end.

Definition replace (old new s : string) : string :=
  replace_from (S (String.length s)) old new s.

(** [s.split(sep, 1)] for a one-character [sep], when [sep in s];
    without an occurrence the whole string is the first part. *)
Fixpoint split_once (sep : ascii) (s : string) : string * string :=
  match s with
  | "" => ("", "")
  | String c s' =>
      if ascii_dec c sep then ("", s')
      else let '(a, b) := split_once sep s' in (String c a, b)
  end.

(** ASCII white space, as removed by [bytes.strip()] *)
Definition is_space (c : ascii) : bool :=
  let n := N_of_ascii c in ((9 <=? n) && (n <=? 13) || (n =? 32))%N.

Fixpoint lstrip (s : string) : string :=
  match s with
  | String c s' => if is_space c then lstrip s' else s
  | "" => ""
  end.

Definition strip (s : string) : string :=
  String.rev (lstrip (String.rev (lstrip s))).

End Str.

(** ** Python values, as [yaml.safe_load] returns them *)

Module Py.

Inductive value : Type :=
| VNone
| VBool (b : bool)
| VInt (z : Z)
| VStr (s : string)
| VList (items : list value)
| VDict (entries : list (value * value)).

(** Truth value: [if v:], [v or w] *)
Definition truthy (v : value) : bool :=
  match v with
  | VNone => false
  | VBool b => b
  | VInt z => negb (z =? 0)
  | VStr s => negb (String.eqb s "")
  | VList items => match items with [] => false | _ => true end
  | VDict entries => match entries with [] => false | _ => true end
  end.

Definition or_ (v w : value) : value := if truthy v then v else w.

(** [v is None] *)
Definition is_None (v : value) : bool :=
  match v with VNone => true | _ => false end.

(** *** [repr] and [str] *)

Definition hex_digit (n : N) : ascii :=
  match String.get (N.to_nat n) "0123456789abcdef" with
  | Some c => c
  | None => "0"%char
  end.

Definition printable (c : ascii) : bool :=
  let n := N_of_ascii c in
  ((32 <=? n) && (n <? 127) || (161 <=? n) && negb (n =? 173))%N.

Definition repr_char (quote c : ascii) : string :=
  let n := N_of_ascii c in
  if ascii_dec c backslash then String backslash (String backslash "")
  else if ascii_dec c quote then String backslash (String quote "")
  else if (n =? 10)%N then String backslash "n"
  else if (n =? 13)%N then String backslash "r"
  else if (n =? 9)%N then String backslash "t"
  else if printable c then String c ""
  else String backslash
         (String "x" (String (hex_digit (n / 16)) (String (hex_digit (n mod 16)) ""))).

Definition repr_str (s : string) : string :=
  let quote :=
    if Str.contains (String squote "") s && negb (Str.contains (String dquote "") s)
    then dquote else squote in
  String quote (Str.concat (map (repr_char quote) (Str.chars s)))
    +:+ String quote "".

Fixpoint repr (v : value) : string :=
  match v with
  | VNone => "None"
  | VBool true => "True"
  | VBool false => "False"
  | VInt z => pretty z
  | VStr s => repr_str s
  | VList items => "[" +:+ Str.join ", " (map repr items) +:+ "]"
  | VDict entries =>
      "{" +:+ Str.join ", "
                (map (fun kv => repr (fst kv) +:+ ": " +:+ repr (snd kv)) entries)
          +:+ "}"
  end.

(** [str(v)], also what an f-string field [{v}] expands to *)
Definition str (v : value) : string :=
  match v with
  | VStr s => s
  | _ => repr v
  end.

(** *** Dictionaries *)

(** Keys are hashable scalars; [True == 1] and [False == 0] as keys. *)
Definition hashable (v : value) : bool :=
  match v with
  | VList _ | VDict _ => false
  | _ => true
  end.

Definition key_eqb (a b : value) : bool :=
  match a, b with
  | VNone, VNone => true
  | VStr s, VStr t => String.eqb s t
  | VInt x, VInt y => x =? y
  | VBool x, VBool y => Bool.eqb x y
  | VBool x, VInt y | VInt y, VBool x => (if x then 1 else 0) =? y
  | _, _ => false
  end.

Definition is_str (name : string) (v : value) : bool :=
  match v with
  | VStr s => String.eqb s name
  | _ => false
  end.

Fixpoint dict_lookup (k : value) (d : list (value * value)) : option value :=
  match d with
  | [] => None
  | (k', v) :: d' => if key_eqb k' k then Some v else dict_lookup k d'
  end.

(** [d[k] = v]: overwrite in place, or append a new entry *)
Fixpoint dict_set (k v : value) (d : list (value * value))
  : list (value * value) :=
  match d with
  | [] => [(k, v)]
  | (k', v') :: d' =>
      if key_eqb k' k then (k', v) :: d' else (k', v') :: dict_set k v d'
  end.

(** [del d[k]] for a key that is present *)
Fixpoint dict_del (k : value) (d : list (value * value))
  : list (value * value) :=
  match d with
  | [] => []
  | (k', v') :: d' => if key_eqb k' k then d' else (k', v') :: dict_del k d'
  end.

(** *** Protocols used on parsed documents *)

(** [name in v] for a string [name] *)
Definition contains (v : value) (name : string) : result bool :=
  match v with
  | VDict d => Ok (match dict_lookup (VStr name) d with Some _ => true | None => false end)
  | VList items => Ok (existsb (is_str name) items)
  | VStr s => Ok (Str.contains name s)
  | _ => Raise TypeError
  end.

(** [v[name]] for a string [name] *)
Definition getitem (v : value) (name : string) : result value :=
  match v with
  | VDict d =>
      match dict_lookup (VStr name) d with
      | Some x => Ok x
      | None => Raise KeyError
      end
  | _ => Raise TypeError
  end.

(** [for x in v] *)
Definition iter (v : value) : result (list value) :=
  match v with
  | VList items => Ok items
  | VDict d => Ok (map fst d)
  | VStr s => Ok (map (fun c => VStr (String c "")) (Str.chars s))
  | _ => Raise TypeError
  end.

(** [v.get(name, dflt)] *)
Definition get (v : value) (name : string) (dflt : value) : result value :=
  match v with
  | VDict d => Ok (default dflt (dict_lookup (VStr name) d))
  | _ => Raise AttributeError
  end.

(** [v.copy()] *)
Definition copy (v : value) : result value :=
  match v with
  | VDict _ | VList _ => Ok v
  | _ => Raise AttributeError
  end.

(** [v[name] = x] *)
Definition setitem (v : value) (name : string) (x : value) : result value :=
  match v with
  | VDict d => Ok (VDict (dict_set (VStr name) x d))
  | _ => Raise TypeError
  end.

(** [del v[name]] *)
Definition delitem (v : value) (name : string) : result value :=
  match v with
  | VDict d =>
      match dict_lookup (VStr name) d with
      | Some _ => Ok (VDict (dict_del (VStr name) d))
      | None => Raise KeyError
      end
  | _ => Raise TypeError
  end.

(** [v.items()] *)
Definition items (v : value) : result (list (value * value)) :=
  match v with
  | VDict d => Ok d
  | _ => Raise AttributeError
  end.

(** One element of the iterable given to [dict.update]: it must itself
    be a sequence of exactly two elements, the first one hashable. *)
Definition as_pair (v : value) : result (value * value) :=
  xs ← match iter v with
       | Ok xs => Ok xs
       | Raise _ => Raise TypeError
       end;
  match xs with
  | [k; x] => if hashable k then Ok (k, x) else Raise TypeError
  | _ => Raise ValueError
  end.

(** [d.update(other)] *)
Definition dict_update (d : list (value * value)) (other : value)
  : result (list (value * value)) :=
  match other with
  | VDict d' => Ok (fold_left (fun acc kv => dict_set (fst kv) (snd kv) acc) d' d)
  | _ =>
      xs ← iter other;
      for_each xs (fun acc x => kv ← as_pair x; Ok (dict_set (fst kv) (snd kv) acc)) d
  end.

(** A list of arguments handed to [subprocess] or to [str.join]: every
    element has to be a [str]. *)
Fixpoint as_strs (vs : list value) : result (list string) :=
  match vs with
  | [] => Ok []
  | VStr s :: vs' => ss ← as_strs vs'; Ok (s :: ss)
  | _ :: _ => Raise TypeError
  end.

End Py.

Coercion Py.VStr : string >-> Py.value.

(** ** Paths: [os.path.join] and [pathlib.Path.stem] (POSIX) *)

Module Path.

Fixpoint split_on (sep : ascii) (cur : string) (s : string) : list string :=
  match s with
  | "" => [String.rev cur]
  | String c s' =>
      if ascii_dec c sep then String.rev cur :: split_on sep "" s'
      else split_on sep (String c cur) s'
  end.

Fixpoint index (c : ascii) (s : string) : option nat :=
  match s with
  | "" => None
  | String c' s' => if ascii_dec c' c then Some O else S <$> index c s'
  end.

(** [os.path.join(a, b)] for two strings *)
Definition join (a b : string) : string :=
  if Str.startswith "/" b then b
  else if String.eqb a "" || Str.startswith "/" (String.rev a) then a +:+ b
  else a +:+ "/" +:+ b.

(** [Path(p).name]: the last component, empty and [.] components dropped *)
Definition name (p : string) : string :=
  List.last
    (List.filter (fun c => negb (String.eqb c "" || String.eqb c "."))
                 (split_on "/" "" p))
    "".

(** [Path(p).stem]: the name without its last suffix; a leading or a
    trailing dot starts no suffix *)
Definition stem (p : string) : string :=
  let n := name p in
  let r := String.rev n in
  match index "." r with
  | Some j =>
      if (0 <? j)%nat && (j <? String.length n - 1)%nat
      then String.rev (Str.drop (S j) r)
      else n
  | None => n
  end.

End Path.

(** ** The outside world and what a run does to it *)

Inductive file_state : Type :=
| Missing                         (* [os.path.exists] is false *)
| Unreadable (err : string)       (* exists, but [open]/[read] raises [err] *)
| Readable (content : string).

Record world : Type := {
  file : string → file_state;
  safe_load : string → string + Py.value;      (* [inl msg]: a [YAMLError] *)
  dump : Py.value → string;                    (* [yaml.dump] *)
  abspath : string → string;                   (* [os.path.abspath] *)
  check_output : list string → option string;  (* decoded stdout, [None]: failed *)
  check_call : list string → bool;             (* exit status zero *)
  can_write : string → bool                    (* [open(path, "w")] succeeds *)
}.

Inductive event : Type :=
| Print (line : string)
| Exec (argv : list string)
| Write (path content : string).

Inductive outcome (A : Type) : Type :=
| Returned (a : A)
| Raised (e : exn)
| Exited (status : Z).
Arguments Returned {A} a.
Arguments Raised {A} e.
Arguments Exited {A} status.

(** A run: the events it performed, in order, and how it ended. *)
Definition M (A : Type) : Type := (list event * outcome A)%type.

#[global] Instance M_ret : MRet M := fun A a => ([], Returned a).
#[global] Instance M_bind : MBind M := fun A B f m =>
  match m with
  | (tr, Returned a) => let '(tr', o) := f a in (tr ++ tr', o)
  | (tr, Raised e) => (tr, Raised e)
  | (tr, Exited n) => (tr, Exited n)
  end.

Definition trace {A} (m : M A) : list event := fst m.
Definition ending {A} (m : M A) : outcome A := snd m.

Definition lift {A} (r : result A) : M A :=
  match r with
  | Ok a => ([], Returned a)
  | Raise e => ([], Raised e)
  end.

Definition print (line : string) : M unit := ([Print line], Returned tt).
Definition sys_exit {A} (status : Z) : M A := ([], Exited status).

(** [subprocess.check_call(argv)] *)
Definition subprocess_check_call (w : world) (argv : list Py.value) : M unit :=
  args ← lift (Py.as_strs argv);
  if check_call w args then ([Exec args], Returned tt)
  else ([Exec args], Raised CalledProcessError).

(** [subprocess.check_output(argv)] *)
Definition subprocess_check_output (w : world) (argv : list Py.value) : M string :=
  args ← lift (Py.as_strs argv);
  match check_output w args with
  | Some out => ([Exec args], Returned out)
  | None => ([Exec args], Raised CalledProcessError)
  end.

(** [with open(path, "w", newline='\n') as f: f.write(content)] *)
Definition write_file (w : world) (path content : string) : M unit :=
  if can_write w path then ([Write path content], Returned tt)
  else ([], Raised OSError).

Definition is_write (e : event) : bool :=
  match e with Write _ _ => true | _ => false end.
Definition is_print (e : event) : bool :=
  match e with Print _ => true | _ => false end.

(** ** Constants of the script *)

Definition BASE_IMAGE : string := "discourse/base:2.0.20250715-0020".
Definition DKR_PATH : string := "dkr".
Definition CONTAINER_NAME : string := "local_discourse".
Definition MAGIC_SEPARATOR : string := nl +:+ "_FILE_SEPERATOR_" +:+ nl.

(** ** [load_config] *)

(** The message of the exception raised by [open] on a missing file. *)
Definition no_such_file (path : string) : string :=
  "[Errno 2] No such file or directory: " +:+ Py.repr_str path.

(** The inner loop: try each template path until the template is read.
    [Some content] when found, [None] when the loop ends without. *)
Fixpoint find_template (w : world) (template : Py.value)
    (template_paths : list string) : M (option string) :=
  match template_paths with
  | [] => mret None
  | template_path :: rest =>
      full_template_path ←
        match template with
        | Py.VStr t => mret (Path.join template_path t)
        | _ => lift (Raise TypeError)
        end;
      match file w full_template_path with
      | Readable content => mret (Some content)
      | Unreadable err =>
          _ ← print ("Error reading template " +:+ full_template_path
                       +:+ ": " +:+ err);
          find_template w template rest
      | Missing => find_template w template rest
      end
  end.

Definition template_not_found (template : Py.value)
    (template_paths : list string) : string :=
  "Error: template '" +:+ Py.str template
    +:+ "' not found in any of the template paths: "
    +:+ Py.repr (Py.VList (map Py.VStr template_paths)).

(** The outer loop over the [templates] list. *)
Fixpoint add_templates (w : world) (template_paths : list string)
    (templates : list Py.value) (input_parts : list string)
  : M (list string) :=
  match templates with
  | [] => mret input_parts
  | template :: rest =>
      found ← find_template w template template_paths;
      match found with
      | Some content =>
          add_templates w template_paths rest (input_parts ++ [content])
      | None =>
          _ ← print (template_not_found template template_paths);
          sys_exit 1
      end
  end.

Definition read_config (w : world) (config_file : string)
  : M (string * Py.value) :=
  match file w config_file with
  | Readable config_data =>
      match safe_load w config_data with
      | inr config_yml => mret (config_data, config_yml)
      | inl err => _ ← print ("Error reading config file: " +:+ err); sys_exit 1
      end
  | Unreadable err =>
      _ ← print ("Error reading config file: " +:+ err); sys_exit 1
  | Missing =>
      _ ← print ("Error reading config file: " +:+ no_such_file config_file);
      sys_exit 1
  end.

Definition load_config (w : world) (config_file : string)
    (template_paths : list string) : M (list string) :=
  '(config_data, config_yml) ← read_config w config_file;
  templates ← lift (Py.get config_yml "templates" (Py.VList []));
  templates ← lift (Py.iter templates);
  input_parts ← add_templates w template_paths templates ["hack: true"];
  mret (input_parts ++ [config_data]).

(** ** [substitute] *)

(** [\w]: letters, digits and the underscore (code points 0..255) *)
Definition is_word (c : ascii) : bool :=
  let n := N_of_ascii c in
  ((48 <=? n) && (n <=? 57) || (65 <=? n) && (n <=? 90) || (n =? 95)
   || (97 <=? n) && (n <=? 122)
   || (n =? 170) || (n =? 178) || (n =? 179) || (n =? 181) || (n =? 185)
   || (n =? 186) || (188 <=? n) && (n <=? 190)
   || (192 <=? n) && (n <=? 214) || (216 <=? n) && (n <=? 246)
   || (248 <=? n))%N.

(** The longest run of word characters at the front of [s], and the rest:
    what the greedy group [(\w+)] takes. *)
Fixpoint word_prefix (s : string) : string * string :=
  match s with
  | "" => ("", "")
  | String c s' =>
      if is_word c
      then let '(run, rest) := word_prefix s' in (String c run, rest)
      else ("", s)
  end.

(** [re.sub(r'\$(\w+)', replacer, s)]: scan from the left; where a dollar
    sign is followed by at least one word character, call [replacer] on
    the identifier and resume after it; copy every other character.  The
    replacer returns its text and the lines it printed. *)
Fixpoint re_sub_from (fuel : nat) (replacer : string → string * list string)
    (s : string) : string * list string :=
  match fuel with
  | O => (s, [])
  | S fuel' =>
      match s with
      | "" => ("", [])
      | String c s' =>
          match (if ascii_dec c "$" then word_prefix s' else ("", s')) with
          | ("", _) =>
              let '(out, printed) := re_sub_from fuel' replacer s' in
              (String c out, printed)
          | (var_name, rest) =>
              let '(text, printed1) := replacer var_name in
              let '(out, printed2) := re_sub_from fuel' replacer rest in
              (text +:+ out, printed1 ++ printed2)
          end
      end
  end.

Definition re_sub (replacer : string → string * list string) (s : string)
  : string * list string :=
  re_sub_from (S (String.length s)) replacer s.

Definition warn_missing (var_name : string) : string :=
  "WARN: found parameter $" +:+ var_name +:+ " but could not substitute it!".

Definition replacer (params : gmap string string) (var_name : string)
  : string * list string :=
  match params !! var_name with
  | Some v => (v, [])
  | None => ("$" +:+ var_name, [warn_missing var_name])
  end.

(** The substituted text and the warnings printed, in order. *)
Definition substitute (params : gmap string string) (s : string)
  : string * list string :=
  re_sub (replacer params) s.

(** ** [main]: the composition loop *)

(** What the loop over [input_parts] accumulates. *)
Record composition : Type := {
  params : list (Py.value * Py.value);
  build_parts : list string;
  dkrargs : list Py.value;
  base_image : Py.value
}.

Definition initial : composition :=
  {| params := []; build_parts := []; dkrargs := []; base_image := BASE_IMAGE |}.

(** The [build]/[build_hooks] switcharoo: the document with [build]
    renamed to [run] and [build_hooks] to [hooks]. *)
Definition switcharoo (yml : Py.value) : result Py.value :=
  byml ← Py.copy yml;
  has_build ← Py.contains yml "build";
  byml ← (if has_build : bool
          then x ← Py.getitem yml "build";
               byml ← Py.setitem byml "run" x;
               Py.delitem byml "build"
          else Ok byml);
  has_hooks ← Py.contains yml "build_hooks";
  if has_hooks : bool
  then x ← Py.getitem yml "build_hooks";
       byml ← Py.setitem byml "hooks" x;
       Py.delitem byml "build_hooks"
  else Ok byml.

(** One [env] or [labels] entry: [v = str(v or '').replace("{config}",
    config_name)], then the pair [flag], [f"{k}={v}"]. *)
Definition flag_pair (flag config_name : string) (kv : Py.value * Py.value)
  : list Py.value :=
  let v := Str.replace "{config}" config_name
             (Py.str (Py.or_ (snd kv) (Py.VStr ""))) in
  [Py.VStr flag; Py.VStr (Py.str (fst kv) +:+ "=" +:+ v)].

(** [for k, v in section.items(): dkrargs.extend([flag, f"{k}={v}"])] *)
Definition extend_mapping (flag config_name : string) (section : Py.value)
    (dkrargs : list Py.value) : result (list Py.value) :=
  entries ← Py.items section;
  Ok (dkrargs ++ flat_map (flag_pair flag config_name) entries).

(** One [expose] entry. *)
Definition expose_pair (port : Py.value) : result (list Py.value) :=
  has_eq ← Py.contains port "=";
  if has_eq : bool
  then match port with
       | Py.VStr s =>
           let '(host, container) := Str.split_once "=" s in
           Ok [Py.VStr "--expose"; Py.VStr (host +:+ ":" +:+ container)]
       | _ => Raise AttributeError
       end
  else Ok [Py.VStr "-p"; Py.VStr (Py.str port)].

Definition extend_expose (section : Py.value) (dkrargs : list Py.value)
  : result (list Py.value) :=
  ports ← Py.iter section;
  for_each ports (fun args port => p ← expose_pair port; Ok (args ++ p)) dkrargs.

(** One [volumes] entry. *)
Definition volume_pair (w : world) (volume : Py.value) : result (list Py.value) :=
  volume ← Py.getitem volume "volume";
  host ← Py.getitem volume "host";
  volume ← match host with
           | Py.VStr h =>
               if Str.startswith "./" h
               then Py.setitem volume "host" (Py.VStr (abspath w h))
               else Ok volume
           | _ => Raise AttributeError
           end;
  host ← Py.getitem volume "host";
  guest ← Py.getitem volume "guest";
  Ok [Py.VStr "-v"; Py.VStr (Py.str host +:+ ":" +:+ Py.str guest)].

Definition extend_volumes (w : world) (section : Py.value)
    (dkrargs : list Py.value) : result (list Py.value) :=
  volumes ← Py.iter section;
  for_each volumes (fun args volume => p ← volume_pair w volume; Ok (args ++ p))
    dkrargs.

(** [if name in yml: acc = body(acc)] *)
Definition when_section {S} (yml : Py.value) (name : string)
    (body : S → result S) (acc : S) : result S :=
  present ← Py.contains yml name;
  if present : bool then body acc else Ok acc.

(** The body of [for part in input_parts]. *)
Definition compose_part (w : world) (config_name : string)
    (acc : composition) (part : string) : result composition :=
  yml ← match safe_load w part with
        | inr yml => Ok yml
        | inl _ => Raise YAMLError
        end;
  params' ← when_section yml "params"
              (fun ps => x ← Py.getitem yml "params"; Py.dict_update ps x)
              (params acc);
  has_build ← Py.contains yml "build";
  has_hooks ← (if has_build : bool then Ok true
               else Py.contains yml "build_hooks");
  build_parts' ← (if has_hooks : bool
                  then byml ← switcharoo yml;
                       Ok (build_parts acc ++ [dump w byml])
                  else Ok (build_parts acc));
  args ← when_section yml "env"
           (fun args => x ← Py.getitem yml "env";
                        extend_mapping "-e" config_name x args)
           (dkrargs acc);
  args ← when_section yml "labels"
           (fun args => x ← Py.getitem yml "labels";
                        extend_mapping "-l" config_name x args)
           args;
  args ← when_section yml "expose"
           (fun args => x ← Py.getitem yml "expose"; extend_expose x args)
           args;
  args ← when_section yml "volumes"
           (fun args => x ← Py.get yml "volumes" (Py.VList []);
                        extend_volumes w x args)
           args;
  args ← when_section yml "docker_args"
           (fun args => x ← Py.getitem yml "docker_args";
                        xs ← Py.iter x; Ok (args ++ xs))
           args;
  base_image' ← when_section yml "base_image"
                  (fun _ => Py.getitem yml "base_image")
                  (base_image acc);
  Ok {| params := params'; build_parts := build_parts';
        dkrargs := args; base_image := base_image' |}.

Definition compose (w : world) (config_name : string)
    (input_parts : list string) : result composition :=
  for_each input_parts (compose_part w config_name) initial.

(** ** [main]: the command driver *)

(** The sub-commands registered with the argument parser.  ([main] also
    has a branch for [logs], which the parser does not accept.) *)
Inductive command : Type :=
| Enter | Build | Rebuild | Start | Stop | Restart | StartCmd.

Record arguments : Type := {
  arg_command : command;
  arg_config_name : string;
  arg_template_root : list string
}.

Definition default_template_root : list string := ["."; "./discourse_docker"].

Definition image_tag (config_name : string) : string :=
  CONTAINER_NAME +:+ "/" +:+ config_name.

(** The argument list [start] executes. *)
Definition run_argv (config_name : string) (dkrargs : list Py.value)
  : list Py.value :=
  map Py.VStr ["docker"; "run"; "--rm"; "-d"; "-i"; "--name"; config_name]
    ++ dkrargs ++ [Py.VStr (image_tag config_name)].

(** The argument list [start-cmd] prints. *)
Definition start_cmd_argv (config_name : string) (dkrargs : list Py.value)
  : list Py.value :=
  map Py.VStr ["docker"; "run"; "--rm"; "-i"; "--name"; config_name]
    ++ dkrargs ++ [Py.VStr (image_tag config_name)].

Definition build_argv (config_name : string) (base_image : Py.value)
  : list Py.value :=
  map Py.VStr ["docker"; "build"; "--no-cache"; "-t"; image_tag config_name;
               "--build-arg"; "BASE_IMAGE=" +:+ Py.str base_image; DKR_PATH].

(** [cid = subprocess.check_output([...]).strip().decode()] *)
Definition find_instance (w : world) (config_name : string) : M Py.value :=
  out ← subprocess_check_output w
          (map Py.VStr ["docker"; "ps"; "-q"; "-f"; "name=" +:+ config_name]);
  mret (Py.VStr (Str.strip out)).

(** [if cond: subprocess.check_call(argv)] *)
Definition call_if (w : world) (cond : bool) (argv : list Py.value) : M unit :=
  if cond then subprocess_check_call w argv else mret tt.

(** The branch shared by [build], [rebuild], [start] and [start-cmd],
    entered with the container id found before. *)
Definition build_and_start (w : world) (cmd : command) (config_name : string)
    (input_parts : list string) (cid : Py.value) : M unit :=
  _ ← call_if w (match cmd with Rebuild => Py.truthy cid | _ => false end)
        [Py.VStr "docker"; Py.VStr "stop"; cid];
  c ← lift (compose w config_name input_parts);
  _ ← write_file w (Path.join DKR_PATH "init")
        (Str.join MAGIC_SEPARATOR input_parts);
  _ ← write_file w (Path.join DKR_PATH "build")
        (Str.join MAGIC_SEPARATOR (build_parts c));
  _ ← call_if w (match cmd with Build | Rebuild => true | _ => false end)
        (build_argv config_name (base_image c));
  match cmd with
  | Start | Rebuild =>
      if match cmd with Rebuild => Py.is_None cid | _ => false end
      then mret tt
      else subprocess_check_call w (run_argv config_name (dkrargs c))
  | StartCmd =>
      line ← lift (Py.as_strs (start_cmd_argv config_name (dkrargs c)));
      print (Str.join " " line)
  | _ => mret tt
  end.

Definition main (w : world) (args : arguments) : M unit :=
  let config_file := arg_config_name args in
  let config_name := Path.stem config_file in
  input_parts ← load_config w config_file (arg_template_root args);
  cid ← find_instance w config_name;
  match arg_command args with
  | Build | Rebuild | Start | StartCmd =>
      build_and_start w (arg_command args) config_name input_parts cid
  | Restart =>
      call_if w (Py.truthy cid) [Py.VStr "docker"; Py.VStr "restart"; cid]
  | Stop =>
      call_if w (Py.truthy cid) [Py.VStr "docker"; Py.VStr "stop"; cid]
  | Enter =>
      subprocess_check_call w
        (map Py.VStr ["docker"; "exec"; "-it"; config_name; "/bin/bash"; "--login"])
  end.

(** ** Concrete worlds *)

(** A finite table as an oracle. *)
Fixpoint table {A} (entries : list (string * A)) (dflt : A) (key : string) : A :=
  match entries with
  | [] => dflt
  | (k, a) :: rest => if String.eqb k key then a else table rest dflt key
  end.

(** A world given by its files, by what the YAML parser returns on their
    contents (no other text parses) and by the output of [docker ps];
    every engine call and every write succeeds.  The working directory is
    [/srv]; [repr] stands in for [yaml.dump], which no document below
    reaches. *)
Definition world_of (files : list (string * file_state))
    (parses : list (string * Py.value)) (running : string) : world :=
  {| file := table files Missing;
     safe_load := table (map (fun p => (fst p, inr (snd p))) parses)
                    (inl "could not parse");
     dump := Py.repr;
     abspath := fun p => "/srv/" +:+ Str.drop 2 p;
     check_output := fun _ => Some running;
     check_call := fun _ => true;
     can_write := fun _ => true |}.

Definition hack_doc : string * Py.value :=
  ("hack: true", Py.VDict [(Py.VStr "hack", Py.VBool true)]).

Module Scenario.

(** [web.yml] declares [env: {FOO: bar}]; the config lists it under
    [templates] and declares [env: {FOO: baz}]. *)
Definition web_yml : string := "env: {FOO: bar}" +:+ nl.
Definition app_yml : string :=
  "templates: [web.yml]" +:+ nl +:+ "env: {FOO: baz}" +:+ nl.

Definition web_doc : Py.value :=
  Py.VDict [(Py.VStr "env", Py.VDict [(Py.VStr "FOO", Py.VStr "bar")])].
Definition app_doc : Py.value :=
  Py.VDict [(Py.VStr "templates", Py.VList [Py.VStr "web.yml"]);
            (Py.VStr "env", Py.VDict [(Py.VStr "FOO", Py.VStr "baz")])].

Definition override : world :=
  world_of [("app.yml", Readable app_yml); ("./web.yml", Readable web_yml)]
           [hack_doc; (web_yml, web_doc); (app_yml, app_doc)] "".

(** The same, with the template only under the second default root. *)
Definition second_root : world :=
  world_of [("app.yml", Readable app_yml);
            ("./discourse_docker/web.yml", Readable web_yml)]
           [hack_doc; (web_yml, web_doc); (app_yml, app_doc)] "".

(** The same config, but no root holds [web.yml]. *)
Definition no_template : world :=
  world_of [("app.yml", Readable app_yml)]
           [hack_doc; (web_yml, web_doc); (app_yml, app_doc)] "".

(** A config that sets a parameter and mentions two tokens in free
    text, one of them unknown. *)
Definition motd_yml : string :=
  "params: {name: world}" +:+ nl
    +:+ "motd: hello $name and $missing_var" +:+ nl.
Definition motd_doc : Py.value :=
  Py.VDict [(Py.VStr "params", Py.VDict [(Py.VStr "name", Py.VStr "world")]);
            (Py.VStr "motd", Py.VStr "hello $name and $missing_var")].
Definition tokens : world :=
  world_of [("app.yml", Readable motd_yml)] [hack_doc; (motd_yml, motd_doc)] "".

(** A config whose [expose] list holds the integer 80, and one that
    does not parse. *)
Definition ports_yml : string := "expose: [80]" +:+ nl.
Definition ports_doc : Py.value :=
  Py.VDict [(Py.VStr "expose", Py.VList [Py.VInt 80])].
Definition int_port : world :=
  world_of [("app.yml", Readable ports_yml)] [hack_doc; (ports_yml, ports_doc)] "".

Definition broken_yml : string := "env: {FOO: bar" +:+ nl.
Definition plain_yml : string := "templates: [broken.yml]" +:+ nl.
Definition plain_doc : Py.value :=
  Py.VDict [(Py.VStr "templates", Py.VList [Py.VStr "broken.yml"])].
Definition broken_template : world :=
  world_of [("app.yml", Readable plain_yml); ("./broken.yml", Readable broken_yml)]
           [hack_doc; (plain_yml, plain_doc)] "abc123".

Definition run (cmd : command) : arguments :=
  {| arg_command := cmd; arg_config_name := "app.yml";
     arg_template_root := default_template_root |}.

End Scenario.

(** ** Vocabulary of the properties *)

(** An identifier: one or more word characters. *)
Definition is_identifier (name : string) : bool :=
  match name with
  | "" => false
  | _ => forallb is_word (Str.chars name)
  end.

Definition starts_with_word (s : string) : bool :=
  match s with
  | "" => false
  | String c _ => is_word c
  end.

(** Some dollar sign of [s] is followed by a word character. *)
Fixpoint has_token (s : string) : bool :=
  match s with
  | "" => false
  | String c s' =>
      (if ascii_dec c "$" then starts_with_word s' else false) || has_token s'
  end.

(** The content of the file at [root/template] in the first root, in the
    order given, that holds a readable file there. *)
Fixpoint resolve (w : world) (roots : list string) (template : string)
  : option string :=
  match roots with
  | [] => None
  | root :: rest =>
      match file w (Path.join root template) with
      | Readable content => Some content
      | _ => resolve w rest template
      end
  end.

(** Every listed template resolved, in the order listed, or the first
    template that no root holds. *)
Fixpoint resolve_all (w : world) (roots : list string) (templates : list string)
  : string + list string :=
  match templates with
  | [] => inr []
  | template :: rest =>
      match resolve w roots template with
      | None => inl template
      | Some content =>
          match resolve_all w roots rest with
          | inl missing => inl missing
          | inr contents => inr (content :: contents)
          end
      end
  end.

(** The argument list holds [flag] immediately followed by [val]. *)
Definition has_pair (flag val : string) (args : list Py.value) : Prop :=
  ∃ before after, args = before ++ [Py.VStr flag; Py.VStr val] ++ after.

(** A scalar that is not a string. *)
Definition non_string_scalar (v : Py.value) : bool :=
  match v with
  | Py.VNone | Py.VBool _ | Py.VInt _ => true
  | _ => false
  end.

(** The commands that compose the documents. *)
Definition composes (cmd : command) : bool :=
  match cmd with
  | Build | Rebuild | Start | StartCmd => true
  | _ => false
  end.

(** Every event of the run satisfies [P]. *)
Definition trace_all {A} (P : event → Prop) (m : M A) : Prop :=
  ∀ e, e ∈ trace m → P e.

Definition not_write (e : event) : Prop := is_write e = false.

(** The loader only prints, and every line it prints is an error line. *)
Definition loader_event (e : event) : Prop :=
  match e with
  | Print line => Str.startswith "E" line = true
  | _ => False
  end.

(** If the event writes the [init] artifact, it writes the raw documents
    [parts] joined by the separator. *)
Definition writes_raw (parts : list string) (e : event) : Prop :=
  match e with
  | Write path content =>
      path = Path.join DKR_PATH "init" → content = Str.join MAGIC_SEPARATOR parts
  | _ => True
  end.

(** A printed line is a diagnostic of the loader ("Error...") or the
    line of [start-cmd] ("docker..."). *)
Definition known_line (e : event) : Prop :=
  match e with
  | Print line => Str.startswith "E" line = true ∨ Str.startswith "d" line = true
  | _ => True
  end.

(** ** Vocabulary of the further properties *)

(** The keys of a dict are pairwise different, as in every dict the
    parser builds. *)
Fixpoint unique_keys (d : list (Py.value * Py.value)) : bool :=
  match d with
  | [] => true
  | (k, _) :: d' =>
      negb (existsb (fun kv => Py.key_eqb (fst kv) k) d') && unique_keys d'
  end.

(** The section names the composition loop looks for. *)
Definition section_names : list string :=
  ["params"; "build"; "build_hooks"; "env"; "labels"; "expose"; "volumes";
   "docker_args"; "base_image"].

(** The base image after one more document: the one it declares, if it
    declares one. *)
Definition declared_image (w : world) (image : Py.value) (part : string)
  : Py.value :=
  match safe_load w part with
  | inr (Py.VDict d) => default image (Py.dict_lookup (Py.VStr "base_image") d)
  | _ => image
  end.

(** One character of a string, as a string. *)
Definition char_str (c : ascii) : Py.value := Py.VStr (String c "").

(** The event is no engine call other than the [docker ps] query. *)
Definition only_ps (e : event) : Prop :=
  match e with
  | Exec argv => ∃ rest, argv = "docker" :: "ps" :: rest
  | _ => True
  end.

(** The event is no engine call with the given sub-command. *)
Definition not_subcommand (sub : string) (e : event) : Prop :=
  match e with
  | Exec argv => ∀ rest, argv ≠ "docker" :: sub :: rest
  | _ => True
  end.

(** * Properties *)

(** ** Strings *)

Lemma append_cons (c : ascii) (a b : string) : String c a +:+ b = String c (a +:+ b).
Proof. reflexivity. Qed.

Lemma append_nil_l (a : string) : "" +:+ a = a.
Proof. reflexivity. Qed.

Lemma append_nil_r (a : string) : a +:+ "" = a.
Proof. induction a as [|c a IH]; [reflexivity|]. by rewrite append_cons, IH. Qed.

Lemma append_assoc (a b c : string) : (a +:+ b) +:+ c = a +:+ b +:+ c.
Proof. induction a as [|x a IH]; [reflexivity|]. by rewrite !append_cons, IH. Qed.

Lemma length_append (a b : string) :
  String.length (a +:+ b) = (String.length a + String.length b)%nat.
Proof. induction a as [|x a IH]; [reflexivity|]. rewrite append_cons. simpl. lia. Qed.

(** ** [substitute] *)

Lemma word_prefix_length (s : string) :
  (String.length (word_prefix s).2 ≤ String.length s)%nat.
Proof.
  induction s as [|c s IH]; simpl; [lia|].
  destruct (is_word c); [|simpl; lia].
  destruct (word_prefix s) as [run rest]. simpl in *. lia.
Qed.

Lemma word_prefix_nonword (s : string) :
  starts_with_word s = false → word_prefix s = ("", s).
Proof. destruct s as [|c s]; simpl; [done|]. by intros ->. Qed.

Lemma word_prefix_app (a b : string) :
  starts_with_word b = false →
  word_prefix (a +:+ b) = ((word_prefix a).1, (word_prefix a).2 +:+ b).
Proof.
  intros Hb. induction a as [|c a IH].
  - rewrite append_nil_l. by rewrite word_prefix_nonword.
  - rewrite append_cons. simpl. destruct (is_word c); [|done].
    rewrite IH. by destruct (word_prefix a).
Qed.

Lemma word_prefix_identifier (name : string) :
  forallb is_word (Str.chars name) = true → word_prefix name = (name, "").
Proof.
  induction name as [|c name IH]; simpl; [done|].
  intros [Hc Hn]%andb_prop. rewrite Hc, (IH Hn). done.
Qed.

Section re_sub.

Variable f : string → string * list string.

Lemma re_sub_from_S (n : nat) (c : ascii) (s : string) :
  re_sub_from (S n) f (String c s) =
  match (if ascii_dec c "$" then word_prefix s else ("", s)) with
  | ("", _) => let '(out, printed) := re_sub_from n f s in (String c out, printed)
  | (var_name, rest) =>
      let '(text, printed1) := f var_name in
      let '(out, printed2) := re_sub_from n f rest in
      (text +:+ out, printed1 ++ printed2)
  end.
Proof. reflexivity. Qed.

Lemma re_sub_from_enough (n m : nat) (s : string) :
  (String.length s < n)%nat → (String.length s < m)%nat →
  re_sub_from n f s = re_sub_from m f s.
Proof.
  revert m s. induction n as [|n IH]; intros m s Hn Hm; [lia|].
  destruct m as [|m]; [lia|].
  destruct s as [|c s]; [done|]. simpl in Hn, Hm. rewrite !re_sub_from_S.
  pose proof (word_prefix_length s) as Hlen.
  destruct (ascii_dec c "$"); [destruct (word_prefix s) as [run rest]|];
    simpl in Hlen; try destruct run;
    repeat (rewrite (IH m) by lia); reflexivity.
Qed.

Lemma re_sub_nil : re_sub f "" = ("", []).
Proof. reflexivity. Qed.

Lemma re_sub_cons (c : ascii) (s : string) :
  re_sub f (String c s) =
  match (if ascii_dec c "$" then word_prefix s else ("", s)) with
  | ("", _) => let '(out, printed) := re_sub f s in (String c out, printed)
  | (var_name, rest) =>
      let '(text, printed1) := f var_name in
      let '(out, printed2) := re_sub f rest in
      (text +:+ out, printed1 ++ printed2)
  end.
Proof.
  unfold re_sub.
  change (String.length (String c s)) with (S (String.length s)).
  rewrite re_sub_from_S.
  pose proof (word_prefix_length s) as Hlen.
  destruct (ascii_dec c "$"); [destruct (word_prefix s) as [run rest]|];
    simpl in Hlen; try destruct run;
    try rewrite (re_sub_from_enough (S (String.length s))
                   (S (String.length rest)) rest) by lia;
    reflexivity.
Qed.

(** Text without a token is copied. *)
Lemma re_sub_no_token (s : string) : has_token s = false → re_sub f s = (s, []).
Proof.
  induction s as [|c s IH]; [done|]. simpl.
  intros [Hc Hs]%orb_false_elim. rewrite re_sub_cons, (IH Hs).
  destruct (ascii_dec c "$"); [|done].
  by rewrite (word_prefix_nonword _ Hc).
Qed.

(** A token between two texts: the three are handled one after the
    other; the scan resumes right after the identifier. *)
Lemma re_sub_token (pre name post : string) :
  is_identifier name = true → starts_with_word post = false →
  re_sub f (pre +:+ "$" +:+ name +:+ post) =
  ((re_sub f pre).1 +:+ (f name).1 +:+ (re_sub f post).1,
   (re_sub f pre).2 ++ (f name).2 ++ (re_sub f post).2).
Proof.
  intros Hid Hpost.
  assert (Hname : word_prefix (name +:+ post) = (name, post)).
  { rewrite (word_prefix_app _ _ Hpost).
    destruct name as [|c name]; [done|].
    by rewrite (word_prefix_identifier _ Hid). }
  remember (String.length pre) as n eqn:Hn.
  revert pre Hn. induction (lt_wf n) as [n _ IH]. intros pre ->.
  destruct pre as [|c pre].
  - rewrite append_nil_l, append_cons, append_nil_l, re_sub_cons, re_sub_nil.
    destruct (ascii_dec "$" "$") as [_|]; [|done]. rewrite Hname.
    destruct name as [|x name]; [done|].
    destruct (f (String x name)) as [text pr1].
    by destruct (re_sub f post) as [out pr2].
  - rewrite append_cons, !re_sub_cons.
    pose proof (word_prefix_length pre) as Hlen.
    destruct (ascii_dec c "$") as [->|_].
    + rewrite (word_prefix_app pre ("$" +:+ name +:+ post)) by done.
      destruct (word_prefix pre) as [run rest]. simpl in Hlen. simpl fst; simpl snd.
      destruct run as [|x run].
      * rewrite (IH (String.length pre)) by (simpl; lia || done).
        by destruct (re_sub f pre).
      * rewrite (IH (String.length rest)) by (simpl; lia || done).
        destruct (f (String x run)) as [text pr1].
        destruct (re_sub f rest) as [out pr2]. simpl.
        by rewrite append_assoc, <- !(assoc_L (++)).
    + rewrite (IH (String.length pre)) by (simpl; lia || done).
      by destruct (re_sub f pre).
Qed.

End re_sub.



(** ** [str.replace], [str.split] and the [in] test on strings *)

Lemma startswith_app (p b : string) : Str.startswith p (p +:+ b) = true.
Proof.
  induction p as [|c p IH]; [by destruct b|].
  rewrite append_cons. simpl. by destruct (ascii_dec c c).
Qed.

Lemma drop_app (p b : string) : Str.drop (String.length p) (p +:+ b) = b.
Proof. induction p as [|c p IH]; [by destruct b|]. by rewrite append_cons. Qed.

Lemma startswith_split (p s : string) :
  Str.startswith p s = true → s = p +:+ Str.drop (String.length p) s.
Proof.
  revert s. induction p as [|c p IH]; intros [|d s] H; simpl in *; try done.
  destruct (ascii_dec c d) as [->|]; [|done]. by rewrite append_cons, <- IH.
Qed.

Lemma drop_length (n : nat) (s : string) :
  (String.length (Str.drop n s) ≤ String.length s)%nat.
Proof.
  revert s. induction n as [|n IH]; intros [|c s]; simpl; try lia.
  specialize (IH s). lia.
Qed.

Section replace.

Variables (c0 : ascii) (old' new : string).
Local Abbreviation old := (String c0 old').

Lemma replace_from_S (n : nat) (c : ascii) (s : string) :
  Str.replace_from (S n) old new (String c s) =
  if Str.startswith old (String c s)
  then new +:+ Str.replace_from n old new (Str.drop (String.length old') s)
  else String c (Str.replace_from n old new s).
Proof. reflexivity. Qed.

Lemma replace_from_enough (n m : nat) (s : string) :
  (String.length s < n)%nat → (String.length s < m)%nat →
  Str.replace_from n old new s = Str.replace_from m old new s.
Proof.
  revert m s. induction n as [|n IH]; intros m s Hn Hm; [lia|].
  destruct m as [|m]; [lia|].
  destruct s as [|c s]; [done|]. simpl in Hn, Hm. rewrite !replace_from_S.
  pose proof (drop_length (String.length old') s).
  destruct (Str.startswith old (String c s));
    rewrite (IH m) by lia; reflexivity.
Qed.

Lemma replace_cons (c : ascii) (s : string) :
  Str.replace old new (String c s) =
  if Str.startswith old (String c s)
  then new +:+ Str.replace old new (Str.drop (String.length old) (String c s))
  else String c (Str.replace old new s).
Proof.
  unfold Str.replace.
  change (String.length (String c s)) with (S (String.length s)).
  rewrite replace_from_S.
  pose proof (drop_length (String.length old') s).
  destruct (Str.startswith old (String c s)); [|done].
  change (Str.drop (String.length old) (String c s))
    with (Str.drop (String.length old') s).
  by rewrite (replace_from_enough (S (String.length s))
                (S (String.length (Str.drop (String.length old') s)))) by lia.
Qed.

(** A text in which [old] does not occur is returned as it is. *)
Lemma replace_absent (s : string) :
  Str.contains old s = false → Str.replace old new s = s.
Proof.
  induction s as [|c s IH]; [done|].
  cbn [Str.contains]. intros [Hc Hs]%orb_false_elim.
  by rewrite replace_cons, Hc, (IH Hs).
Qed.

(** When no occurrence of [old] can start before one that begins at the
    end of [a], the occurrence after [a] is replaced, once, and both
    sides are handled on their own. *)
Lemma replace_occurrence (a b : string) :
  (∀ x y, x ≠ "" → Str.startswith old (x +:+ old +:+ y) = true →
          Str.startswith old x = true) →
  Str.replace old new (a +:+ old +:+ b) =
  Str.replace old new a +:+ new +:+ Str.replace old new b.
Proof.
  intros Hsolid.
  remember (String.length a) as n eqn:Hn.
  revert a Hn. induction (lt_wf n) as [n _ IH]. intros a ->.
  destruct a as [|c a].
  - rewrite append_nil_l, append_cons, replace_cons, <- append_cons.
    by rewrite startswith_app, drop_app.
  - rewrite append_cons, !replace_cons, <- append_cons.
    destruct (Str.startswith old (String c a)) eqn:Ha.
    + apply startswith_split in Ha as Hsplit.
      rewrite Hsplit at 1. rewrite append_assoc, startswith_app.
      rewrite Hsplit at 1. rewrite append_assoc, drop_app.
      pose proof (drop_length (String.length old') a).
      rewrite (IH (String.length (Str.drop (String.length old) (String c a))))
        by (simpl; lia || done).
      by rewrite append_assoc.
    + destruct (Str.startswith old (String c a +:+ old +:+ b)) eqn:Hab.
      { apply Hsolid in Hab; [congruence|done]. }
      rewrite append_cons.
      by rewrite (IH (String.length a)) by (simpl; lia || done).
Qed.

End replace.

(** An occurrence of [{config}] cannot start inside a text and run into a
    following occurrence: the opening brace is found nowhere else in it. *)
Lemma config_token_solid (x y : string) :
  x ≠ "" → Str.startswith "{config}" (x +:+ "{config}" +:+ y) = true →
  Str.startswith "{config}" x = true.
Proof.
  intros Hx H.
  do 8 (destruct x as [|? x];
        [first [done | vm_compute in H; discriminate H]|];
        rewrite append_cons in H; cbn [Str.startswith] in *;
        destruct (ascii_dec _ _); [|discriminate H]).
  done.
Qed.

Lemma replace_config (config_name a b : string) :
  Str.replace "{config}" config_name (a +:+ "{config}" +:+ b) =
  Str.replace "{config}" config_name a +:+ config_name
    +:+ Str.replace "{config}" config_name b.
Proof. apply replace_occurrence, config_token_solid. Qed.

Lemma contains_char_app (c : ascii) (a b : string) :
  Str.contains (String c "") (a +:+ String c b) = true.
Proof.
  induction a as [|x a IH].
  - rewrite append_nil_l. simpl. by destruct (ascii_dec c c).
  - rewrite append_cons. cbn [Str.contains]. rewrite IH. by destruct (Str.startswith _ _).
Qed.

Lemma split_once_first (c : ascii) (a b : string) :
  Str.contains (String c "") a = false →
  Str.split_once c (a +:+ String c b) = (a, b).
Proof.
  induction a as [|x a IH]; intros Ha.
  - rewrite append_nil_l. simpl. by destruct (ascii_dec c c).
  - rewrite append_cons. cbn [Str.contains] in Ha.
    apply orb_false_elim in Ha as [Hx Ha]. simpl in Hx. simpl.
    destruct (ascii_dec x c) as [->|]; [by destruct (ascii_dec c c)|].
    by rewrite (IH Ha).
Qed.

(** ** The loop over the entries of a section *)

Lemma for_each_extend {A B} (f : A → result (list B)) (xs : list A)
    (outs : list (list B)) (acc : list B) :
  Forall2 (fun x out => f x = Ok out) xs outs →
  for_each xs (fun acc x => out ← f x; Ok (acc ++ out)) acc
  = Ok (acc ++ concat outs).
Proof.
  intros H. revert acc. induction H as [|x out xs outs Hx _ IH]; intros acc.
  - simpl. by rewrite (right_id_L [] (++)).
  - cbn [for_each concat]. rewrite Hx. cbn. rewrite IH. by rewrite (assoc_L (++)).
Qed.

Lemma for_each_raise {A B} (f : A → result (list B)) (before : list A)
    (outs : list (list B)) (x : A) (after : list A) (e : exn) (acc : list B) :
  Forall2 (fun x out => f x = Ok out) before outs →
  f x = Raise e →
  for_each (before ++ x :: after) (fun acc x => out ← f x; Ok (acc ++ out)) acc
  = Raise e.
Proof.
  intros H Hx. revert acc. induction H as [|y out ys outs Hy _ IH]; intros acc.
  - cbn. by rewrite Hx.
  - cbn [for_each app]. rewrite Hy. cbn. apply IH.
Qed.

Lemma expose_pair_string (s : string) :
  ∃ out, expose_pair (Py.VStr s) = Ok out.
Proof.
  unfold expose_pair. cbn. destruct (Str.contains "=" s); [|by eexists].
  destruct (Str.split_once "=" s). by eexists.
Qed.

Lemma expose_strings_ok (ss : list string) :
  ∃ outs, Forall2 (fun x out => expose_pair x = Ok out) (map Py.VStr ss) outs.
Proof.
  induction ss as [|s ss [outs IH]]; [by exists []|].
  destruct (expose_pair_string s) as [out Hs].
  exists (out :: outs). by constructor.
Qed.

Lemma str_or_empty (s : string) : Py.str (Py.or_ (Py.VStr s) (Py.VStr "")) = s.
Proof. by destruct s. Qed.





(** C10.  The [expose] step goes through when every entry is a string;
    an entry that is a scalar but not a string (such as the integer 80)
    makes the [=] test raise a type error, which nothing catches: the
    step, and with it the composition of the document, ends with that
    error. *)
Theorem expose_needs_strings (w : world) (config_name : string)
    (acc : composition) (part : string) (ports before : list string)
    (port : Py.value) (after dkrargs : list Py.value) :
  non_string_scalar port = true →
  safe_load w part
    = inr (Py.VDict [(Py.VStr "expose",
                      Py.VList (map Py.VStr before ++ port :: after))]) →
  is_Ok (extend_expose (Py.VList (map Py.VStr ports)) dkrargs) = true
  ∧ expose_pair port = Raise TypeError
  ∧ extend_expose (Py.VList (map Py.VStr before ++ port :: after)) dkrargs
    = Raise TypeError
  ∧ compose_part w config_name acc part = Raise TypeError.
Proof.
  intros Hport Hpart.
  assert (Hraise : expose_pair port = Raise TypeError).
  { by destruct port. }
  assert (Hstep : ∀ args,
    extend_expose (Py.VList (map Py.VStr before ++ port :: after)) args
    = Raise TypeError).
  { intros args. unfold extend_expose. cbn [Py.iter mbind result_bind].
    destruct (expose_strings_ok before) as [outs Houts].
    by eapply for_each_raise. }
  split; [|split; [|split]]; try done.
  - destruct (expose_strings_ok ports) as [outs Houts].
    unfold extend_expose. cbn [Py.iter mbind result_bind].
    by rewrite (for_each_extend _ _ _ _ Houts).
  - unfold compose_part. rewrite Hpart.
    cbn -[extend_expose]. by rewrite Hstep.
Qed.

Lemma expose_needs_strings_witness :
  is_Ok (extend_expose (Py.VList (map Py.VStr ["443"; "8080=80"])) []) = true
  ∧ expose_pair (Py.VInt 80) = Raise TypeError
  ∧ extend_expose (Py.VList (map Py.VStr [] ++ Py.VInt 80 :: [])) [] = Raise TypeError
  ∧ compose_part Scenario.int_port "app" initial Scenario.ports_yml = Raise TypeError.
Proof.
  exact (expose_needs_strings Scenario.int_port "app" initial Scenario.ports_yml
           ["443"; "8080=80"] [] (Py.VInt 80) [] [] eq_refl eq_refl).
Defined.

(** ** Runs *)

Lemma bind_run {A B} (m : M A) (f : A → M B) :
  m ≫= f = match ending m with
           | Returned a => (trace m ++ trace (f a), ending (f a))
           | Raised e => (trace m, Raised e)
           | Exited n => (trace m, Exited n)
           end.
Proof. destruct m as [tr [a|e|n]]; cbn; try done. by destruct (f a). Qed.

Lemma trace_all_bind {A B} (P : event → Prop) (m : M A) (f : A → M B) :
  trace_all P m → (∀ a, ending m = Returned a → trace_all P (f a)) →
  trace_all P (m ≫= f).
Proof.
  intros Hm Hf e. rewrite bind_run.
  destruct (ending m) as [a| |] eqn:Hend; cbn; [|apply Hm..].
  intros [He|He]%elem_of_app; [by apply Hm|by apply (Hf a)].
Qed.

Lemma trace_all_lift {A} (P : event → Prop) (r : result A) : trace_all P (lift r).
Proof. intros e. destruct r; cbn; by intros ?%elem_of_nil. Qed.

Lemma trace_all_ret {A} (P : event → Prop) (a : A) : trace_all P (mret a : M A).
Proof. intros e. cbn. by intros ?%elem_of_nil. Qed.

Lemma trace_all_exit {A} (P : event → Prop) (n : Z) : trace_all P (sys_exit n : M A).
Proof. intros e. cbn. by intros ?%elem_of_nil. Qed.

Lemma trace_all_print (P : event → Prop) (line : string) :
  P (Print line) → trace_all P (print line).
Proof. intros H e. cbn. by intros ->%list_elem_of_singleton. Qed.

Lemma trace_all_call (P : event → Prop) (w : world) (argv : list Py.value) :
  (∀ args, P (Exec args)) → trace_all P (subprocess_check_call w argv).
Proof.
  intros H. unfold subprocess_check_call.
  apply trace_all_bind; [apply trace_all_lift|]. intros args _ e.
  destruct (check_call w args); cbn; by intros ->%list_elem_of_singleton.
Qed.

Lemma trace_all_call_if (P : event → Prop) (w : world) (cond : bool)
    (argv : list Py.value) :
  (∀ args, P (Exec args)) → trace_all P (call_if w cond argv).
Proof.
  intros H. destruct cond; [by apply trace_all_call|apply trace_all_ret].
Qed.

Lemma trace_all_output (P : event → Prop) (w : world) (argv : list Py.value) :
  (∀ args, P (Exec args)) → trace_all P (subprocess_check_output w argv).
Proof.
  intros H. unfold subprocess_check_output.
  apply trace_all_bind; [apply trace_all_lift|]. intros args _ e.
  destruct (check_output w args); cbn; by intros ->%list_elem_of_singleton.
Qed.

Lemma trace_all_write (P : event → Prop) (w : world) (path content : string) :
  P (Write path content) → trace_all P (write_file w path content).
Proof.
  intros H e. unfold write_file.
  destruct (can_write w path); cbn;
    [by intros ->%list_elem_of_singleton|by intros ?%elem_of_nil].
Qed.

(** ** [load_config] *)


Lemma find_template_events (w : world) (template : Py.value) (roots : list string) :
  trace_all loader_event (find_template w template roots).
Proof.
  induction roots as [|root roots IH]; [apply trace_all_ret|].
  cbn [find_template]. apply trace_all_bind.
  { destruct template; first [apply trace_all_ret | apply trace_all_lift]. }
  intros full _. destruct (file w full); [done| |apply trace_all_ret].
  apply trace_all_bind; [|done].
  by apply trace_all_print.
Qed.

Lemma add_templates_events (w : world) (roots : list string)
    (templates : list Py.value) (input_parts : list string) :
  trace_all loader_event (add_templates w roots templates input_parts).
Proof.
  revert input_parts.
  induction templates as [|template templates IH]; intros input_parts;
    [apply trace_all_ret|].
  cbn [add_templates]. apply trace_all_bind; [apply find_template_events|].
  intros [content|] _; [apply IH|].
  apply trace_all_bind; [|intros; apply trace_all_exit].
  by apply trace_all_print.
Qed.

Lemma read_config_events (w : world) (config_file : string) :
  trace_all loader_event (read_config w config_file).
Proof.
  unfold read_config.
  destruct (file w config_file) as [|err|data];
    [| |destruct (safe_load w data); [|apply trace_all_ret]];
    (apply trace_all_bind; [|intros; apply trace_all_exit]);
    by apply trace_all_print.
Qed.

Lemma load_config_events (w : world) (config_file : string) (roots : list string) :
  trace_all loader_event (load_config w config_file roots).
Proof.
  unfold load_config. apply trace_all_bind; [apply read_config_events|].
  intros [data yml] _.
  apply trace_all_bind; [apply trace_all_lift|]. intros ? _.
  apply trace_all_bind; [apply trace_all_lift|]. intros ? _.
  apply trace_all_bind; [apply add_templates_events|]. intros ? _.
  apply trace_all_ret.
Qed.

Lemma find_template_resolve (w : world) (roots : list string) (template : string) :
  ending (find_template w (Py.VStr template) roots)
  = Returned (resolve w roots template).
Proof.
  induction roots as [|root roots IH]; [done|].
  cbn [find_template resolve]. rewrite bind_run.
  cbn [ending trace mret M_ret fst snd].
  destruct (file w (Path.join root template)); [done| |done].
  by rewrite bind_run.
Qed.

Lemma add_templates_resolve (w : world) (roots templates : list string)
    (input_parts : list string) :
  let run := add_templates w roots (map Py.VStr templates) input_parts in
  match resolve_all w roots templates with
  | inr contents => ending run = Returned (input_parts ++ contents)
  | inl missing =>
      ending run = Exited 1
      ∧ last (trace run) = Some (Print (template_not_found (Py.VStr missing) roots))
  end.
Proof.
  revert input_parts.
  induction templates as [|template templates IH]; intros input_parts.
  { cbn. by rewrite (right_id_L [] (++)). }
  cbn [map add_templates resolve_all]. cbv zeta. rewrite bind_run.
  rewrite find_template_resolve.
  destruct (resolve w roots template) as [content|].
  - specialize (IH (input_parts ++ [content])). cbv zeta in IH.
    destruct (resolve_all w roots templates) as [missing|contents]; cbn.
    + destruct IH as [Hend Hlast]. split; [done|].
      rewrite last_app. by rewrite Hlast.
    + cbn. rewrite IH. by rewrite <- (assoc_L (++)).
  - cbn. split; [done|]. by rewrite last_snoc.
Qed.



(** ** [main] *)

Lemma trace_all_impl {A} (P Q : event → Prop) (m : M A) :
  (∀ e, P e → Q e) → trace_all P m → trace_all Q m.
Proof. intros HPQ Hm e He. by apply HPQ, Hm. Qed.

Lemma find_instance_run (w : world) (config_name : string) :
  let argv := ["docker"; "ps"; "-q"; "-f"; "name=" +:+ config_name] in
  find_instance w config_name =
  match check_output w argv with
  | Some out => ([Exec argv], Returned (Py.VStr (Str.strip out)))
  | None => ([Exec argv], Raised CalledProcessError)
  end.
Proof.
  cbv zeta. unfold find_instance, subprocess_check_output. cbn.
  by destruct (check_output w _).
Qed.

Lemma find_instance_events (P : event → Prop) (w : world) (config_name : string) :
  (∀ args, P (Exec args)) → trace_all P (find_instance w config_name).
Proof.
  intros H. unfold find_instance.
  apply trace_all_bind; [by apply trace_all_output|]. intros; apply trace_all_ret.
Qed.

(** A document that does not parse stops the composition loop. *)
Lemma compose_parse_failure (w : world) (config_name : string)
    (parts : list string) (part msg : string) (acc : composition) :
  part ∈ parts → safe_load w part = inl msg →
  ∃ e, for_each parts (compose_part w config_name) acc = Raise e.
Proof.
  intros Hin Hpart. revert acc.
  induction parts as [|p parts IH]; intros acc; [by apply elem_of_nil in Hin|].
  cbn [for_each].
  destruct (compose_part w config_name acc p) as [acc'|e] eqn:Hp;
    [|by exists e].
  apply elem_of_cons in Hin as [->|Hin]; [|by apply IH].
  unfold compose_part in Hp. by rewrite Hpart in Hp.
Qed.

(** Until the composition has returned, [build_and_start] writes nothing;
    if the composition raises, it ends there. *)
Lemma build_and_start_raise (w : world) (cmd : command) (config_name : string)
    (parts : list string) (cid : Py.value) (e : exn) :
  compose w config_name parts = Raise e →
  trace_all not_write (build_and_start w cmd config_name parts cid)
  ∧ ∃ x, ending (build_and_start w cmd config_name parts cid) = Raised x.
Proof.
  intros Hc. unfold build_and_start. rewrite Hc. split.
  - apply trace_all_bind; [by apply trace_all_call_if|]. intros _ _.
    apply trace_all_bind; [apply trace_all_lift|]. by intros c [=].
  - rewrite bind_run. unfold call_if, subprocess_check_call.
    destruct (match cmd with Rebuild => Py.truthy cid | _ => false end);
      [|cbn; by eexists].
    rewrite bind_run. destruct cid; cbn; try by eexists.
    destruct (check_call w _); cbn; by eexists.
Qed.

(** C9.  When a document of the sequence does not parse as YAML, the run
    writes neither the [init] nor the [build] artifact, and a command
    that composes the documents ends with an uncaught exception: the
    artifacts are written only after every document has been parsed. *)
Theorem parse_failure_writes_nothing (w : world) (args : arguments)
    (parts : list string) (part msg : string) :
  ending (load_config w (arg_config_name args) (arg_template_root args))
    = Returned parts →
  part ∈ parts →
  safe_load w part = inl msg →
  trace_all not_write (main w args)
  ∧ (composes (arg_command args) = true → ∃ x, ending (main w args) = Raised x).
Proof.
  intros Hload Hin Hpart.
  destruct (compose_parse_failure w (Path.stem (arg_config_name args))
              parts part msg initial Hin Hpart) as [e He].
  fold (compose w (Path.stem (arg_config_name args)) parts) in He.
  pose proof (build_and_start_raise w (arg_command args)
                (Path.stem (arg_config_name args)) parts) as Hbs.
  split.
  - unfold main. apply trace_all_bind.
    { eapply trace_all_impl; [|apply load_config_events]. by intros []. }
    intros parts' Hparts'. rewrite Hload in Hparts'. injection Hparts' as <-.
    apply trace_all_bind; [by apply find_instance_events|]. intros cid _.
    destruct (arg_command args);
      first [ by apply (Hbs cid e He)
            | by apply trace_all_call_if
            | by apply trace_all_call ].
  - intros Hcmd. unfold main. rewrite bind_run, Hload, bind_run.
    rewrite find_instance_run.
    destruct (check_output w _) as [out|]; cbn [ending trace fst snd];
      [|by eexists].
    destruct (Hbs (Py.VStr (Str.strip out)) e He) as [_ [x Hx]].
    destruct (arg_command args); try done; exists x; exact Hx.
Qed.

Lemma parse_failure_writes_nothing_witness :
  trace_all not_write (main Scenario.broken_template (Scenario.run Rebuild))
  ∧ (composes Rebuild = true →
     ∃ x, ending (main Scenario.broken_template (Scenario.run Rebuild)) = Raised x).
Proof.
  exact (parse_failure_writes_nothing Scenario.broken_template
           (Scenario.run Rebuild)
           ["hack: true"; Scenario.broken_yml; Scenario.plain_yml]
           Scenario.broken_yml "could not parse"
           eq_refl (list_elem_of_further _ _ _ (list_elem_of_here _ _)) eq_refl).
Defined.

Lemma as_strs_str (ss : list string) : Py.as_strs (map Py.VStr ss) = Ok ss.
Proof. induction ss as [|s ss IH]; [done|]. cbn. by rewrite IH. Qed.

Lemma as_strs_app (xs ys : list Py.value) :
  Py.as_strs (xs ++ ys) =
  match Py.as_strs xs, Py.as_strs ys with
  | Ok a, Ok b => Ok (a ++ b)
  | Ok _, Raise e => Raise e
  | Raise e, _ => Raise e
  end.
Proof.
  induction xs as [|x xs IH]; [cbn; by destruct (Py.as_strs ys)|].
  destruct x; cbn; try (by destruct (Py.as_strs ys)). rewrite IH.
  by destruct (Py.as_strs xs), (Py.as_strs ys).
Qed.

Lemma as_strs_raise (xs : list Py.value) (e : exn) :
  Py.as_strs xs = Raise e → e = TypeError.
Proof.
  induction xs as [|x xs IH]; [done|]. destruct x; cbn; try congruence.
  destruct (Py.as_strs xs); cbn; [done|]. intros [= <-]. by apply IH.
Qed.

(** [subprocess.check_call] spelled out: the arguments must be strings,
    then the engine is run and its exit status decides. *)
Lemma check_call_run (w : world) (argv : list Py.value) :
  subprocess_check_call w argv =
  match Py.as_strs argv with
  | Ok args => ([Exec args],
                if check_call w args then Returned tt
                else Raised CalledProcessError)
  | Raise e => ([], Raised e)
  end.
Proof.
  unfold subprocess_check_call. destruct (Py.as_strs argv) as [args|e]; [|done].
  cbn. by destruct (check_call w args).
Qed.

Lemma build_call_run (w : world) (config_name : string) (image : Py.value) :
  let argv := ["docker"; "build"; "--no-cache"; "-t"; image_tag config_name;
               "--build-arg"; "BASE_IMAGE=" +:+ Py.str image; DKR_PATH] in
  call_if w true (build_argv config_name image) =
  if check_call w argv then ([Exec argv], Returned tt)
  else ([Exec argv], Raised CalledProcessError).
Proof.
  cbv zeta. unfold call_if, subprocess_check_call, build_argv.
  rewrite as_strs_str. cbn. by destruct (check_call w _).
Qed.

Ltac split_trace H :=
  rewrite ?elem_of_app, ?elem_of_cons, ?elem_of_nil in H.

(** No event of the trace in [H] is the successful build call. *)
Ltac no_build_event H Hnot Htr1 :=
  exfalso; destruct Htr1 as [-> | ->]; split_trace H;
  repeat (match type of H with _ ∨ _ => destruct H as [H|H] end);
  first [ exact (Hnot H) | discriminate H | contradiction
        | injection H as ->; congruence ].



Lemma start_cmd_line (config_name : string) (dkrargs : list Py.value)
    (line : list string) :
  Py.as_strs (start_cmd_argv config_name dkrargs) = Ok line →
  Str.startswith "d" (Str.join " " line) = true.
Proof.
  unfold start_cmd_argv. rewrite as_strs_app, as_strs_str.
  destruct (Py.as_strs (dkrargs ++ _)); [|done]. by intros [= <-].
Qed.

(** What [build_and_start] and [main] do once the documents are loaded:
    the [init] artifact gets the raw documents, and nothing but the
    [start-cmd] line is printed. *)
Lemma build_and_start_events (w : world) (cmd : command) (config_name : string)
    (parts : list string) (cid : Py.value) :
  trace_all (fun e => writes_raw parts e ∧ known_line e)
    (build_and_start w cmd config_name parts cid).
Proof.
  unfold build_and_start.
  apply trace_all_bind; [by apply trace_all_call_if|]. intros _ _.
  apply trace_all_bind; [apply trace_all_lift|]. intros c _.
  apply trace_all_bind; [by apply trace_all_write|]. intros _ _.
  apply trace_all_bind; [by apply trace_all_write|]. intros _ _.
  apply trace_all_bind; [by apply trace_all_call_if|]. intros _ _.
  destruct cmd; try apply trace_all_ret.
  - destruct (Py.is_None cid); [apply trace_all_ret|by apply trace_all_call].
  - by apply trace_all_call.
  - apply trace_all_bind; [apply trace_all_lift|]. intros line Hline.
    apply trace_all_print. split; [done|]. right.
    destruct (Py.as_strs (start_cmd_argv config_name (dkrargs c))) eqn:Hstrs;
      [|done].
    injection Hline as <-. by eapply start_cmd_line.
Qed.

Lemma main_events (w : world) (args : arguments) :
  trace_all known_line (main w args)
  ∧ ∀ content,
      Write (Path.join DKR_PATH "init") content ∈ trace (main w args) →
      ∃ parts,
        ending (load_config w (arg_config_name args) (arg_template_root args))
          = Returned parts
        ∧ content = Str.join MAGIC_SEPARATOR parts.
Proof.
  pose proof (load_config_events w (arg_config_name args) (arg_template_root args))
    as Hloader.
  assert (Hrest : ∀ parts cid,
    trace_all (fun e => writes_raw parts e ∧ known_line e)
      (match arg_command args with
       | Build | Rebuild | Start | StartCmd =>
           build_and_start w (arg_command args)
             (Path.stem (arg_config_name args)) parts cid
       | Restart =>
           call_if w (Py.truthy cid) [Py.VStr "docker"; Py.VStr "restart"; cid]
       | Stop =>
           call_if w (Py.truthy cid) [Py.VStr "docker"; Py.VStr "stop"; cid]
       | Enter =>
           subprocess_check_call w
             (map Py.VStr ["docker"; "exec"; "-it";
                           Path.stem (arg_config_name args); "/bin/bash"; "--login"])
       end)).
  { intros parts cid.
    destruct (arg_command args);
      first [ apply build_and_start_events
            | by apply trace_all_call_if
            | by apply trace_all_call ]. }
  split.
  - unfold main. apply trace_all_bind.
    { eapply trace_all_impl; [|exact Hloader]. intros [] ?; try done. by left. }
    intros parts _. apply trace_all_bind; [by apply find_instance_events|].
    intros cid _. eapply trace_all_impl; [|apply (Hrest parts cid)].
    by intros ? [_ ?].
  - intros content. unfold main. rewrite bind_run.
    destruct (ending (load_config w _ _)) as [parts| |];
      cbn [trace ending fst snd];
      try (intros H; by apply Hloader in H).
    intros [H|H]%elem_of_app; [by apply Hloader in H|].
    exists parts. split; [done|].
    eapply (trace_all_bind (writes_raw parts)) in H; [by apply H| |].
    { by apply find_instance_events. }
    intros cid _. eapply trace_all_impl; [|apply (Hrest parts cid)].
    by intros ? [? _].
Qed.

(** C1 (as the code has it).  Composition does not substitute: whatever
    [main] writes to the [init] artifact is the raw text of the loaded
    documents joined by the separator, so every [$token] stays as it is
    whether or not its identifier is a key of the accumulated parameter
    set, and no warning about a missing parameter is printed. *)
Theorem composition_keeps_tokens (w : world) (args : arguments)
    (content : string) :
  Write (Path.join DKR_PATH "init") content ∈ trace (main w args) →
  (∃ parts,
     ending (load_config w (arg_config_name args) (arg_template_root args))
       = Returned parts
     ∧ content = Str.join MAGIC_SEPARATOR parts)
  ∧ ∀ var_name, Print (warn_missing var_name) ∉ trace (main w args).
Proof.
  intros Hwrite. destruct (main_events w args) as [Hlines Hraw].
  split; [by apply Hraw|].
  intros var_name Hwarn. apply Hlines in Hwarn.
  destruct Hwarn as [H|H]; vm_compute in H; discriminate H.
Qed.

Lemma composition_keeps_tokens_witness :
  let run := main Scenario.tokens (Scenario.run Start) in
  let raw := "hack: true" +:+ MAGIC_SEPARATOR +:+ Scenario.motd_yml in
  (∃ parts,
     ending (load_config Scenario.tokens "app.yml" default_template_root)
       = Returned parts
     ∧ raw = Str.join MAGIC_SEPARATOR parts)
  ∧ ∀ var_name, Print (warn_missing var_name) ∉ trace run.
Proof.
  apply (composition_keeps_tokens Scenario.tokens (Scenario.run Start)
           ("hack: true" +:+ MAGIC_SEPARATOR +:+ Scenario.motd_yml)).
  vm_compute. apply list_elem_of_further, list_elem_of_here.
Defined.

(** C1, the claim as stated, fails.  The config sets the parameter
    [name] and mentions [$name] and [$missing_var]: the parameter set is
    accumulated, the run succeeds, but the text written is not the
    substituted one and the warning that [substitute] would give is not
    printed. *)
Lemma composition_does_not_substitute :
  let run := main Scenario.tokens (Scenario.run Start) in
  let parts := ["hack: true"; Scenario.motd_yml] in
  let accumulated : gmap string string := {[ "name" := "world" ]} in
  (ending run = Returned tt
   ∧ ∃ c, compose Scenario.tokens "app" parts = Ok c
          ∧ params c = [(Py.VStr "name", Py.VStr "world")])
  ∧ ¬ (∀ content,
         Write "dkr/init" content ∈ trace run →
         content = Str.join MAGIC_SEPARATOR
                     (map (fun part => (substitute accumulated part).1) parts)
         ∧ ∀ part line,
             part ∈ parts → line ∈ (substitute accumulated part).2 →
             Print line ∈ trace run).
Proof.
  cbv zeta. split.
  - split; [reflexivity|]. eexists. split; reflexivity.
  - intros H.
    destruct (H (Str.join MAGIC_SEPARATOR ["hack: true"; Scenario.motd_yml]))
      as [Hcontent _].
    { vm_compute. apply list_elem_of_further, list_elem_of_here. }
    vm_compute in Hcontent. discriminate Hcontent.
Qed.

(** C2 (as the code has it).  In the override scenario the runtime
    arguments hold both pairs: the template's [-e FOO=bar] first, the
    config's [-e FOO=baz] after it; a later document appends and removes
    nothing. *)
Theorem scenario_keeps_both_pairs (w : world) (config_name web app : string) :
  safe_load w "hack: true" = inr (snd hack_doc) →
  safe_load w web = inr Scenario.web_doc →
  safe_load w app = inr Scenario.app_doc →
  ∃ c, compose w config_name ["hack: true"; web; app] = Ok c
       ∧ dkrargs c = map Py.VStr ["-e"; "FOO=bar"; "-e"; "FOO=baz"]
       ∧ has_pair "-e" "FOO=bar" (dkrargs c)
       ∧ has_pair "-e" "FOO=baz" (dkrargs c).
Proof.
  intros Hhack Hweb Happ. eexists. split; [|split; [|split]].
  - unfold compose. cbn [for_each].
    unfold compose_part. rewrite Hhack. cbn.
    rewrite Hweb. cbn. rewrite Happ. cbn. reflexivity.
  - reflexivity.
  - by exists [], [Py.VStr "-e"; Py.VStr "FOO=baz"].
  - by exists [Py.VStr "-e"; Py.VStr "FOO=bar"], [].
Qed.

Lemma scenario_keeps_both_pairs_witness :
  ∃ c, compose Scenario.override "app"
         ["hack: true"; Scenario.web_yml; Scenario.app_yml] = Ok c
       ∧ dkrargs c = map Py.VStr ["-e"; "FOO=bar"; "-e"; "FOO=baz"]
       ∧ has_pair "-e" "FOO=bar" (dkrargs c)
       ∧ has_pair "-e" "FOO=baz" (dkrargs c).
Proof.
  exact (scenario_keeps_both_pairs Scenario.override "app"
           Scenario.web_yml Scenario.app_yml eq_refl eq_refl eq_refl).
Defined.

(** C2, the claim as stated, fails: the runtime arguments composed for
    the override scenario do hold the pair [-e FOO=bar]. *)
Lemma override_keeps_template_entry :
  ¬ (∀ parts c,
       ending (load_config Scenario.override "app.yml" default_template_root)
         = Returned parts →
       compose Scenario.override "app" parts = Ok c →
       has_pair "-e" "FOO=baz" (dkrargs c)
       ∧ ¬ has_pair "-e" "FOO=bar" (dkrargs c)).
Proof.
  intros H.
  destruct (H ["hack: true"; Scenario.web_yml; Scenario.app_yml] _
              eq_refl eq_refl) as [_ Hbar].
  apply Hbar. by exists [], [Py.VStr "-e"; Py.VStr "FOO=baz"].
Qed.

(** C3.  [start] and [start-cmd] do not use the same argument list: the
    one [start] executes has the flag [-d], the one [start-cmd] prints
    has not.  On the override scenario: *)
Theorem start_cmd_omits_detach :
  last (trace (main Scenario.override (Scenario.run Start)))
    = Some (Exec ["docker"; "run"; "--rm"; "-d"; "-i"; "--name"; "app";
                  "-e"; "FOO=bar"; "-e"; "FOO=baz"; "local_discourse/app"])
  ∧ last (trace (main Scenario.override (Scenario.run StartCmd)))
    = Some (Print ("docker run --rm -i --name app "
                     +:+ "-e FOO=bar -e FOO=baz local_discourse/app"))
  ∧ ∀ config_name dkrargs,
      run_argv config_name dkrargs ≠ start_cmd_argv config_name dkrargs.
Proof.
  split; [reflexivity|]. split; [reflexivity|].
  intros config_name dkrargs H. discriminate H.
Qed.

(** * Further properties *)

(** ** Dictionaries *)

Lemma key_eqb_sym (a b : Py.value) : Py.key_eqb a b = Py.key_eqb b a.
Proof.
  destruct a as [|x|x|x|x|x], b as [|y|y|y|y|y]; cbn; try done;
    first [ apply Z.eqb_sym | apply String.eqb_sym | by destruct x, y ].
Qed.

Lemma key_eqb_str (k : Py.value) (name : string) :
  Py.key_eqb k (Py.VStr name) = true ↔ k = Py.VStr name.
Proof.
  destruct k; cbn; try (split; [done|by intros [=]]).
  rewrite String.eqb_eq. split; [by intros ->|by intros [= ->]].
Qed.

Lemma key_eqb_str_trans (k k' : Py.value) (name : string) :
  Py.key_eqb k' k = true →
  Py.key_eqb k' (Py.VStr name) = Py.key_eqb k (Py.VStr name).
Proof.
  intros Hk.
  destruct (Py.key_eqb k (Py.VStr name)) eqn:H1.
  - apply key_eqb_str in H1 as ->. done.
  - destruct (Py.key_eqb k' (Py.VStr name)) eqn:H2; [|done].
    apply key_eqb_str in H2 as ->. by rewrite key_eqb_sym, H1 in Hk.
Qed.

Lemma lookup_set (k v : Py.value) (d : list (Py.value * Py.value)) (name : string) :
  Py.dict_lookup (Py.VStr name) (Py.dict_set k v d)
  = if Py.key_eqb k (Py.VStr name) then Some v
    else Py.dict_lookup (Py.VStr name) d.
Proof.
  induction d as [|[k' v'] d IH]; cbn; [done|].
  destruct (Py.key_eqb k' k) eqn:Hk; cbn.
  - rewrite (key_eqb_str_trans _ _ _ Hk). by destruct (Py.key_eqb k _).
  - rewrite IH. destruct (Py.key_eqb k' (Py.VStr name)) eqn:H1; [|done].
    apply key_eqb_str in H1 as ->.
    destruct (Py.key_eqb k (Py.VStr name)) eqn:H2; [|done].
    apply key_eqb_str in H2 as ->. cbn in Hk. by rewrite String.eqb_refl in Hk.
Qed.

Lemma lookup_absent (name : string) (d : list (Py.value * Py.value)) :
  existsb (fun kv => Py.key_eqb (fst kv) (Py.VStr name)) d = false →
  Py.dict_lookup (Py.VStr name) d = None.
Proof.
  induction d as [|[k v] d IH]; cbn; [done|].
  intros [-> H]%orb_false_elim. by apply IH.
Qed.

Lemma lookup_del (name other : string) (d : list (Py.value * Py.value)) :
  unique_keys d = true →
  Py.dict_lookup (Py.VStr name) (Py.dict_del (Py.VStr other) d)
  = if String.eqb other name then None else Py.dict_lookup (Py.VStr name) d.
Proof.
  induction d as [|[k v] d IH]; cbn; [by destruct (String.eqb _ _)|].
  intros [Hk Hd]%andb_prop. apply negb_true_iff in Hk.
  destruct (Py.key_eqb k (Py.VStr other)) eqn:Ho; cbn.
  - apply key_eqb_str in Ho as ->. cbn.
    destruct (String.eqb other name) eqn:Hn; [|done].
    apply String.eqb_eq in Hn as ->. by apply lookup_absent.
  - rewrite (IH Hd). destruct (Py.key_eqb k (Py.VStr name)) eqn:Hn; [|done].
    apply key_eqb_str in Hn as ->. cbn in Ho.
    destruct (String.eqb other name) eqn:Hon; [|done].
    by rewrite String.eqb_sym, Hon in Ho.
Qed.

Lemma existsb_set (k v k0 : Py.value) (d : list (Py.value * Py.value)) :
  existsb (fun kv => Py.key_eqb (fst kv) k0) (Py.dict_set k v d) = true →
  existsb (fun kv => Py.key_eqb (fst kv) k0) d = true
  ∨ (existsb (fun kv => Py.key_eqb (fst kv) k) d = false
     ∧ Py.key_eqb k k0 = true).
Proof.
  induction d as [|[k' v'] d IH]; cbn.
  - rewrite orb_false_r. by right.
  - destruct (Py.key_eqb k' k) eqn:Hk; cbn; [by left|].
    destruct (Py.key_eqb k' k0); cbn; [by left|].
    intros [H|[H1 H2]]%IH; [by left|right]. by rewrite H1.
Qed.

Lemma unique_set (k v : Py.value) (d : list (Py.value * Py.value)) :
  unique_keys d = true → unique_keys (Py.dict_set k v d) = true.
Proof.
  induction d as [|[k' v'] d IH]; cbn; [done|].
  intros [Hk Hd]%andb_prop. apply negb_true_iff in Hk.
  destruct (Py.key_eqb k' k) eqn:Hkk; cbn.
  - by rewrite Hk, Hd.
  - rewrite (IH Hd), andb_true_r. apply negb_true_iff.
    destruct (existsb _ (Py.dict_set k v d)) eqn:He; [|done].
    apply existsb_set in He as [He|[_ He]]; [congruence|].
    by rewrite key_eqb_sym, Hkk in He.
Qed.

(** ** Fallible steps *)

Lemma bind_Ok {A B} (m : result A) (f : A → result B) (b : B) :
  m ≫= f = Ok b → ∃ a, m = Ok a ∧ f a = Ok b.
Proof. destruct m as [a|e]; [by exists a|done]. Qed.

Lemma for_each_app {A S} (xs ys : list A) (body : S → A → result S) (acc : S) :
  for_each (xs ++ ys) body acc = for_each xs body acc ≫= for_each ys body.
Proof.
  revert acc. induction xs as [|x xs IH]; intros acc; [done|].
  cbn [app for_each]. destruct (body acc x) as [acc'|e]; [apply IH|done].
Qed.

Lemma for_each_grows {A B} (f : A → result (list B)) (xs : list A)
    (acc out : list B) :
  for_each xs (fun acc x => p ← f x; Ok (acc ++ p)) acc = Ok out →
  ∃ more, out = acc ++ more.
Proof.
  revert acc. induction xs as [|x xs IH]; intros acc; cbn [for_each].
  - intros [= <-]. exists []. by rewrite (right_id_L [] (++)).
  - intros (acc' & Hx & Hrest)%bind_Ok.
    apply bind_Ok in Hx as (p & _ & [= <-]).
    apply IH in Hrest as [more ->]. exists (p ++ more).
    by rewrite (assoc_L (++)).
Qed.

Lemma when_section_grows {B} (yml : Py.value) (name : string)
    (body : list B → result (list B)) (acc out : list B) :
  (∀ a r, body a = Ok r → ∃ more, r = a ++ more) →
  when_section yml name body acc = Ok out → ∃ more, out = acc ++ more.
Proof.
  intros Hbody. unfold when_section.
  intros ([] & _ & H)%bind_Ok; [by apply Hbody|].
  injection H as <-. exists []. by rewrite (right_id_L [] (++)).
Qed.

(** What a successful [compose_part] did, step by step. *)
Lemma compose_part_Ok (w : world) (config_name : string)
    (acc acc' : composition) (part : string) :
  compose_part w config_name acc part = Ok acc' →
  ∃ yml, safe_load w part = inr yml
    ∧ when_section yml "params"
        (fun ps => x ← Py.getitem yml "params"; Py.dict_update ps x)
        (params acc) = Ok (params acc')
    ∧ (∃ more, build_parts acc' = build_parts acc ++ more)
    ∧ (∃ more, dkrargs acc' = dkrargs acc ++ more)
    ∧ when_section yml "base_image" (fun _ => Py.getitem yml "base_image")
        (base_image acc) = Ok (base_image acc').
Proof.
  unfold compose_part. destruct (safe_load w part) as [msg|yml]; [done|].
  cbn [mbind result_bind].
  intros (ps & Hps & H)%bind_Ok.
  apply bind_Ok in H as (has_build & _ & H).
  apply bind_Ok in H as (has_hooks & _ & H).
  apply bind_Ok in H as (bp & Hbp & H).
  apply bind_Ok in H as (a1 & H1 & H).
  apply bind_Ok in H as (a2 & H2 & H).
  apply bind_Ok in H as (a3 & H3 & H).
  apply bind_Ok in H as (a4 & H4 & H).
  apply bind_Ok in H as (a5 & H5 & H).
  apply bind_Ok in H as (img & Himg & [= <-]). cbn.
  exists yml. split; [done|]. split; [done|]. split; [|split; [|done]].
  - destruct has_hooks.
    + apply bind_Ok in Hbp as (byml & _ & [= <-]). by eexists.
    + injection Hbp as <-. exists []. by rewrite (right_id_L [] (++)).
  - apply when_section_grows in H1 as [m1 ->].
    2:{ intros a r (x & _ & (entries & _ & [= <-])%bind_Ok)%bind_Ok. by eexists. }
    apply when_section_grows in H2 as [m2 ->].
    2:{ intros a r (x & _ & (entries & _ & [= <-])%bind_Ok)%bind_Ok. by eexists. }
    apply when_section_grows in H3 as [m3 ->].
    2:{ intros a r (x & _ & (ports & _ & Hf)%bind_Ok)%bind_Ok.
        by apply for_each_grows in Hf. }
    apply when_section_grows in H4 as [m4 ->].
    2:{ intros a r (x & _ & (vols & _ & Hf)%bind_Ok)%bind_Ok.
        by apply for_each_grows in Hf. }
    apply when_section_grows in H5 as [m5 ->].
    2:{ intros a r (x & _ & (xs & _ & [= <-])%bind_Ok)%bind_Ok. by eexists. }
    exists (m1 ++ m2 ++ m3 ++ m4 ++ m5). by rewrite <- !(assoc_L (++)).
Qed.

Lemma existsb_del (k k0 : Py.value) (d : list (Py.value * Py.value)) :
  existsb (fun kv => Py.key_eqb (fst kv) k0) d = false →
  existsb (fun kv => Py.key_eqb (fst kv) k0) (Py.dict_del k d) = false.
Proof.
  induction d as [|[k' v'] d IH]; cbn; [done|].
  intros [H1 H2]%orb_false_elim.
  destruct (Py.key_eqb k' k); cbn; [done|]. by rewrite H1, IH.
Qed.

Lemma unique_del (k : Py.value) (d : list (Py.value * Py.value)) :
  unique_keys d = true → unique_keys (Py.dict_del k d) = true.
Proof.
  induction d as [|[k' v'] d IH]; cbn; [done|].
  intros [Hk Hd]%andb_prop. apply negb_true_iff in Hk.
  destruct (Py.key_eqb k' k); cbn; [done|].
  by rewrite (existsb_del _ _ _ Hk), (IH Hd).
Qed.

Lemma lookup_update (new d : list (Py.value * Py.value)) (name : string) :
  unique_keys new = true →
  Py.dict_lookup (Py.VStr name)
    (fold_left (fun acc kv => Py.dict_set (fst kv) (snd kv) acc) new d)
  = match Py.dict_lookup (Py.VStr name) new with
    | Some v => Some v
    | None => Py.dict_lookup (Py.VStr name) d
    end.
Proof.
  revert d. induction new as [|[k v] new IH]; intros d; cbn; [done|].
  intros [Hk Hnew]%andb_prop. apply negb_true_iff in Hk.
  rewrite (IH _ Hnew), lookup_set.
  destruct (Py.key_eqb k (Py.VStr name)) eqn:Hname; [|done].
  apply key_eqb_str in Hname as ->. by rewrite (lookup_absent _ _ Hk).
Qed.

(** X1.  A document's [params] are merged into the running parameter set
    with the document winning: after the document, a name it sets has the
    document's value, and every other name keeps the value it had. *)
Theorem params_document_wins (w : world) (config_name : string)
    (acc acc' : composition) (part : string) (yml : Py.value)
    (ps : list (Py.value * Py.value)) (name : string) :
  safe_load w part = inr yml →
  Py.getitem yml "params" = Ok (Py.VDict ps) →
  unique_keys ps = true →
  compose_part w config_name acc part = Ok acc' →
  Py.dict_lookup (Py.VStr name) (params acc')
  = match Py.dict_lookup (Py.VStr name) ps with
    | Some v => Some v
    | None => Py.dict_lookup (Py.VStr name) (params acc)
    end.
Proof.
  intros Hload Hget Hps (yml' & Hload' & Hparams & _)%compose_part_Ok.
  rewrite Hload in Hload'. injection Hload' as <-.
  unfold when_section in Hparams. rewrite Hget in Hparams.
  destruct yml as [| | | | |d]; try done. cbn in Hget, Hparams.
  destruct (Py.dict_lookup (Py.VStr "params") d); [|done].
  cbn in Hparams. injection Hparams as <-. by apply lookup_update.
Qed.

Lemma params_document_wins_witness :
  let doc := Py.VDict [(Py.VStr "params",
                        Py.VDict [(Py.VStr "db", Py.VStr "new")])] in
  let w := world_of [] [("params: {db: new}", doc)] "" in
  let acc := {| params := [(Py.VStr "db", Py.VStr "old"); (Py.VStr "host", Py.VStr "h")];
                build_parts := []; dkrargs := []; base_image := BASE_IMAGE |} in
  let acc' := {| params := [(Py.VStr "db", Py.VStr "new"); (Py.VStr "host", Py.VStr "h")];
                 build_parts := []; dkrargs := []; base_image := BASE_IMAGE |} in
  compose_part w "app" acc "params: {db: new}" = Ok acc'
  ∧ Py.dict_lookup (Py.VStr "db") (params acc') = Some (Py.VStr "new").
Proof.
  cbv zeta. split; [reflexivity|].
  exact (params_document_wins
           (world_of [] [("params: {db: new}",
              Py.VDict [(Py.VStr "params",
                         Py.VDict [(Py.VStr "db", Py.VStr "new")])])] "")
           "app"
           {| params := [(Py.VStr "db", Py.VStr "old"); (Py.VStr "host", Py.VStr "h")];
              build_parts := []; dkrargs := []; base_image := BASE_IMAGE |}
           {| params := [(Py.VStr "db", Py.VStr "new"); (Py.VStr "host", Py.VStr "h")];
              build_parts := []; dkrargs := []; base_image := BASE_IMAGE |}
           "params: {db: new}"
           (Py.VDict [(Py.VStr "params", Py.VDict [(Py.VStr "db", Py.VStr "new")])])
           [(Py.VStr "db", Py.VStr "new")] "db"
           eq_refl eq_refl eq_refl eq_refl).
Defined.

Lemma compose_from_grows (w : world) (config_name : string)
    (parts : list string) (acc c : composition) :
  for_each parts (compose_part w config_name) acc = Ok c →
  (∃ args, dkrargs c = dkrargs acc ++ args)
  ∧ (∃ built, build_parts c = build_parts acc ++ built).
Proof.
  revert acc. induction parts as [|part parts IH]; intros acc; cbn [for_each].
  - intros [= <-]. split; exists []; by rewrite (right_id_L [] (++)).
  - intros (acc' & Hpart & Hrest)%bind_Ok.
    apply compose_part_Ok in Hpart as (_ & _ & _ & [b Hb] & [a Ha] & _).
    apply IH in Hrest as [[a' ->] [b' ->]]. rewrite Ha, Hb.
    split; eexists; by rewrite <- (assoc_L (++)).
Qed.

(** X2.  Documents only append: when a sequence of documents composes,
    every prefix of it composes too, and the runtime arguments and build
    parts of the whole begin with those of the prefix.  A later document
    never removes or reorders what an earlier one contributed. *)
Theorem later_documents_only_append (w : world) (config_name : string)
    (parts more_parts : list string) (c : composition) :
  compose w config_name (parts ++ more_parts) = Ok c →
  ∃ c1 args built,
    compose w config_name parts = Ok c1
    ∧ dkrargs c = dkrargs c1 ++ args
    ∧ build_parts c = build_parts c1 ++ built.
Proof.
  unfold compose. rewrite for_each_app.
  intros (c1 & Hc1 & Hrest)%bind_Ok.
  apply compose_from_grows in Hrest as [[args ->] [built ->]].
  by exists c1, args, built.
Qed.

Lemma later_documents_only_append_witness :
  ∃ c1 args built,
    compose Scenario.override "app" (["hack: true"; Scenario.web_yml]) = Ok c1
    ∧ map Py.VStr ["-e"; "FOO=bar"; "-e"; "FOO=baz"] = dkrargs c1 ++ args
    ∧ [] = build_parts c1 ++ built.
Proof.
  exact (later_documents_only_append Scenario.override "app"
           ["hack: true"; Scenario.web_yml] [Scenario.app_yml]
           {| params := []; build_parts := [];
              dkrargs := map Py.VStr ["-e"; "FOO=bar"; "-e"; "FOO=baz"];
              base_image := BASE_IMAGE |} eq_refl).
Defined.

(** X3.  A document in which none of the section names is found is
    accepted and changes nothing: unknown sections of a mapping are
    ignored, and so is a document that is a plain text or a list not
    mentioning any section name. *)
Theorem unknown_sections_ignored (w : world) (config_name : string)
    (acc : composition) (part : string) (yml : Py.value) :
  safe_load w part = inr yml →
  Forall (fun name => Py.contains yml name = Ok false) section_names →
  compose_part w config_name acc part = Ok acc.
Proof.
  intros Hload Hnone. unfold compose_part, when_section. rewrite Hload.
  repeat (apply Forall_cons in Hnone as [? Hnone]).
  repeat (cbn [mbind result_bind];
          match goal with
          | H : Py.contains yml ?n = Ok false
            |- context [Py.contains yml ?n] => rewrite H
          end).
  cbn [mbind result_bind]. by destruct acc.
Qed.

Lemma unknown_sections_ignored_witness :
  let w := world_of [] [hack_doc; ("just some text", Py.VStr "just some text")] "" in
  compose_part w "app" initial "hack: true" = Ok initial
  ∧ compose_part w "app" initial "just some text" = Ok initial.
Proof.
  split.
  - apply (unknown_sections_ignored
             (world_of [] [hack_doc; ("just some text", Py.VStr "just some text")] "")
             "app" initial "hack: true" (snd hack_doc) eq_refl).
    repeat constructor.
  - apply (unknown_sections_ignored
             (world_of [] [hack_doc; ("just some text", Py.VStr "just some text")] "")
             "app" initial "just some text" (Py.VStr "just some text") eq_refl).
    repeat constructor.
Defined.

Lemma declared_image_step (w : world) (config_name : string)
    (acc acc' : composition) (part : string) :
  compose_part w config_name acc part = Ok acc' →
  base_image acc' = declared_image w (base_image acc) part.
Proof.
  intros (yml & Hload & _ & _ & _ & Himg)%compose_part_Ok.
  unfold declared_image. rewrite Hload. unfold when_section in Himg.
  apply bind_Ok in Himg as (present & Hpresent & Himg).
  destruct yml as [| | |s|items|d]; cbn in Hpresent; try done;
    injection Hpresent as <-.
  - destruct (Str.contains _ s); cbn in Himg; [done|by injection Himg as <-].
  - destruct (existsb _ items); cbn in Himg; [done|by injection Himg as <-].
  - destruct (Py.dict_lookup (Py.VStr "base_image") d) as [img|] eqn:Hd;
      cbn in *; rewrite ?Hd in Himg; by injection Himg as <-.
Qed.

(** X4.  The base image of a composition is the one declared by the last
    document that has a [base_image] section, and the published
    [BASE_IMAGE] when no document declares one. *)
Theorem base_image_last_declared (w : world) (config_name : string)
    (parts : list string) (c : composition) :
  compose w config_name parts = Ok c →
  base_image c = fold_left (declared_image w) parts (Py.VStr BASE_IMAGE).
Proof.
  unfold compose. change (Py.VStr BASE_IMAGE) with (base_image initial).
  generalize initial. induction parts as [|part parts IH]; intros acc; cbn.
  - by intros [= <-].
  - intros (acc' & Hpart & Hrest)%bind_Ok.
    rewrite (IH _ Hrest). by rewrite (declared_image_step _ _ _ _ _ Hpart).
Qed.

Lemma base_image_last_declared_witness :
  let one := Py.VDict [(Py.VStr "base_image", Py.VStr "img:1")] in
  let two := Py.VDict [(Py.VStr "base_image", Py.VStr "img:2")] in
  let w := world_of [] [hack_doc; ("base_image: img:1", one);
                        ("base_image: img:2", two)] "" in
  ∃ c, compose w "app" ["base_image: img:1"; "base_image: img:2"; "hack: true"]
       = Ok c
       ∧ base_image c = Py.VStr "img:2".
Proof.
  cbv zeta. eexists. split; [reflexivity|].
  exact (base_image_last_declared
           (world_of [] [hack_doc;
              ("base_image: img:1", Py.VDict [(Py.VStr "base_image", Py.VStr "img:1")]);
              ("base_image: img:2", Py.VDict [(Py.VStr "base_image", Py.VStr "img:2")])]
              "")
           "app" ["base_image: img:1"; "base_image: img:2"; "hack: true"] _ eq_refl).
Defined.

(** X5.  A [volumes] entry [{volume: {host: h, guest: g}}] gives the pair
    [-v host:guest]; a host path that starts with [./] is replaced by its
    absolute path first, any other host path is used as written. *)
Theorem volume_pair_resolves (w : world) (entry : Py.value)
    (inner : list (Py.value * Py.value)) (h : string) (g : Py.value) :
  Py.getitem entry "volume" = Ok (Py.VDict inner) →
  Py.dict_lookup (Py.VStr "host") inner = Some (Py.VStr h) →
  Py.dict_lookup (Py.VStr "guest") inner = Some g →
  volume_pair w entry
  = Ok [Py.VStr "-v";
        Py.VStr ((if Str.startswith "./" h then abspath w h else h)
                   +:+ ":" +:+ Py.str g)].
Proof.
  intros Hentry Hhost Hguest. unfold volume_pair. rewrite Hentry.
  cbn [mbind result_bind Py.getitem]. rewrite Hhost. cbn [mbind result_bind].
  destruct (Str.startswith "./" h); cbn [Py.setitem mbind result_bind Py.getitem].
  - rewrite !lookup_set. cbn. by rewrite Hguest.
  - by rewrite Hhost, Hguest.
Qed.

Lemma volume_pair_resolves_witness :
  let w := world_of [] [] "" in
  let entry (h : string) :=
    Py.VDict [(Py.VStr "volume",
               Py.VDict [(Py.VStr "host", Py.VStr h);
                         (Py.VStr "guest", Py.VStr "/shared")])] in
  volume_pair w (entry "./data") = Ok [Py.VStr "-v"; Py.VStr "/srv/data:/shared"]
  ∧ volume_pair w (entry "/var/data")
    = Ok [Py.VStr "-v"; Py.VStr "/var/data:/shared"].
Proof.
  split.
  - exact (volume_pair_resolves (world_of [] [] "")
             (Py.VDict [(Py.VStr "volume",
                Py.VDict [(Py.VStr "host", Py.VStr "./data");
                          (Py.VStr "guest", Py.VStr "/shared")])])
             [(Py.VStr "host", Py.VStr "./data"); (Py.VStr "guest", Py.VStr "/shared")]
             "./data" (Py.VStr "/shared") eq_refl eq_refl eq_refl).
  - exact (volume_pair_resolves (world_of [] [] "")
             (Py.VDict [(Py.VStr "volume",
                Py.VDict [(Py.VStr "host", Py.VStr "/var/data");
                          (Py.VStr "guest", Py.VStr "/shared")])])
             [(Py.VStr "host", Py.VStr "/var/data"); (Py.VStr "guest", Py.VStr "/shared")]
             "/var/data" (Py.VStr "/shared") eq_refl eq_refl eq_refl).
Defined.

(** X6.  A [volumes] entry of another shape stops the run: an entry that
    is not a mapping (such as the text [./data:/shared]) raises a type
    error, a mapping without the key [volume] or whose volume has no
    [guest] raises a key error, and a host that is not a string raises an
    attribute error. *)
Theorem volume_pair_shape (w : world) (text : string)
    (d inner other : list (Py.value * Py.value)) (h : string) (v : Py.value) :
  Py.dict_lookup (Py.VStr "volume") d = None →
  Py.dict_lookup (Py.VStr "host") inner = Some (Py.VStr h) →
  Py.dict_lookup (Py.VStr "guest") inner = None →
  Py.dict_lookup (Py.VStr "host") other = Some v →
  (∀ s, v ≠ Py.VStr s) →
  volume_pair w (Py.VStr text) = Raise TypeError
  ∧ volume_pair w (Py.VDict d) = Raise KeyError
  ∧ volume_pair w (Py.VDict [(Py.VStr "volume", Py.VDict inner)]) = Raise KeyError
  ∧ volume_pair w (Py.VDict [(Py.VStr "volume", Py.VDict other)])
    = Raise AttributeError.
Proof.
  intros Hd Hhost Hguest Hother Hv. split; [done|]. split; [|split].
  - unfold volume_pair. cbn. by rewrite Hd.
  - unfold volume_pair. cbn [mbind result_bind Py.getitem Py.dict_lookup Py.key_eqb].
    cbn [String.eqb Ascii.eqb Bool.eqb]. cbn [mbind result_bind Py.getitem].
    rewrite Hhost. cbn [mbind result_bind].
    destruct (Str.startswith "./" h); cbn [Py.setitem mbind result_bind Py.getitem].
    + rewrite !lookup_set. cbn. by rewrite Hguest.
    + by rewrite Hhost, Hguest.
  - unfold volume_pair. cbn [mbind result_bind Py.getitem Py.dict_lookup Py.key_eqb].
    cbn [String.eqb Ascii.eqb Bool.eqb]. cbn [mbind result_bind Py.getitem].
    rewrite Hother. cbn [mbind result_bind].
    destruct v; try done. by destruct (Hv s).
Qed.

Lemma volume_pair_shape_witness :
  let w := world_of [] [] "" in
  volume_pair w (Py.VStr "./data:/shared") = Raise TypeError
  ∧ volume_pair w (Py.VDict [(Py.VStr "host", Py.VStr "/a")]) = Raise KeyError
  ∧ volume_pair w (Py.VDict [(Py.VStr "volume",
                              Py.VDict [(Py.VStr "host", Py.VStr "./a")])])
    = Raise KeyError
  ∧ volume_pair w (Py.VDict [(Py.VStr "volume",
                              Py.VDict [(Py.VStr "host", Py.VInt 5)])])
    = Raise AttributeError.
Proof.
  apply (volume_pair_shape (world_of [] [] "") "./data:/shared"
           [(Py.VStr "host", Py.VStr "/a")]
           [(Py.VStr "host", Py.VStr "./a")]
           [(Py.VStr "host", Py.VInt 5)] "./a" (Py.VInt 5)
           eq_refl eq_refl eq_refl eq_refl).
  intros s H. discriminate H.
Defined.

(** Lookups in a dict built by [dict_set] and [dict_del], normalised. *)
Ltac dict_norm :=
  repeat first
    [ rewrite lookup_set
    | rewrite lookup_del
        by (repeat first [apply unique_del | apply unique_set]; assumption)
    | progress cbn [Py.key_eqb Py.setitem Py.delitem mbind result_bind]
    | match goal with
      | |- context [String.eqb ?a ?b] =>
          assert_fails (is_var b);
          let v := eval vm_compute in (String.eqb a b) in
          change (String.eqb a b) with v
      | H : String.eqb _ _ = false |- _ => rewrite H
      | H : Py.dict_lookup _ _ = _ |- _ => rewrite H
      end ].

(** X7.  The switcharoo renames and keeps the rest: in the copy, [run]
    holds what [build] held and [hooks] what [build_hooks] held (a [run]
    or [hooks] the document already had is overwritten), the keys [build]
    and [build_hooks] are gone, and every other key has its value. *)
Theorem switcharoo_renames (d : list (Py.value * Py.value)) (name : string) :
  unique_keys d = true →
  ¬ name ∈ ["build"; "build_hooks"; "run"; "hooks"] →
  ∃ r, switcharoo (Py.VDict d) = Ok (Py.VDict r)
    ∧ Py.dict_lookup (Py.VStr "run") r
      = match Py.dict_lookup (Py.VStr "build") d with
        | Some x => Some x
        | None => Py.dict_lookup (Py.VStr "run") d
        end
    ∧ Py.dict_lookup (Py.VStr "hooks") r
      = match Py.dict_lookup (Py.VStr "build_hooks") d with
        | Some x => Some x
        | None => Py.dict_lookup (Py.VStr "hooks") d
        end
    ∧ Py.dict_lookup (Py.VStr "build") r = None
    ∧ Py.dict_lookup (Py.VStr "build_hooks") r = None
    ∧ Py.dict_lookup (Py.VStr name) r = Py.dict_lookup (Py.VStr name) d.
Proof.
  intros Hd Hname.
  assert (Hn : String.eqb "build" name = false ∧ String.eqb "build_hooks" name = false
               ∧ String.eqb "run" name = false ∧ String.eqb "hooks" name = false).
  { repeat split; apply String.eqb_neq; intros <-; apply Hname;
      repeat first [apply list_elem_of_here | apply list_elem_of_further]. }
  destruct Hn as (Hn1 & Hn2 & Hn3 & Hn4).
  unfold switcharoo. cbn [Py.copy Py.contains mbind result_bind Py.getitem].
  destruct (Py.dict_lookup (Py.VStr "build") d) as [x|] eqn:Hb;
    destruct (Py.dict_lookup (Py.VStr "build_hooks") d) as [y|] eqn:Hh;
    dict_norm; eexists; (split; [reflexivity|]); dict_norm; done.
Qed.

Lemma switcharoo_renames_witness :
  let d := [(Py.VStr "run", Py.VStr "old"); (Py.VStr "build", Py.VStr "steps");
            (Py.VStr "env", Py.VNone)] in
  switcharoo (Py.VDict d)
  = Ok (Py.VDict [(Py.VStr "run", Py.VStr "steps"); (Py.VStr "env", Py.VNone)])
  ∧ ∃ r, switcharoo (Py.VDict d) = Ok (Py.VDict r)
    ∧ Py.dict_lookup (Py.VStr "run") r = Some (Py.VStr "steps")
    ∧ Py.dict_lookup (Py.VStr "hooks") r = None
    ∧ Py.dict_lookup (Py.VStr "build") r = None
    ∧ Py.dict_lookup (Py.VStr "build_hooks") r = None
    ∧ Py.dict_lookup (Py.VStr "env") r = Some Py.VNone.
Proof.
  split; [reflexivity|].
  apply (switcharoo_renames
           [(Py.VStr "run", Py.VStr "old"); (Py.VStr "build", Py.VStr "steps");
            (Py.VStr "env", Py.VNone)] "env" eq_refl).
  intros H. repeat (apply elem_of_cons in H as [H|H]; [discriminate H|]).
  by apply elem_of_nil in H.
Defined.

(** X8.  An [env] or [labels] value that counts as false (zero, [false],
    an empty text, list or mapping) is treated like a null value: the
    pair is [key=] with an empty value. *)
Theorem falsy_value_is_empty (flag config_name : string) (k v : Py.value) :
  Py.truthy v = false →
  flag_pair flag config_name (k, v) = [Py.VStr flag; Py.VStr (Py.str k +:+ "=")].
Proof.
  intros Hv. unfold flag_pair, Py.or_. cbn [fst snd]. by rewrite Hv.
Qed.

Lemma falsy_value_is_empty_witness :
  flag_pair "-e" "app" (Py.VStr "WORKERS", Py.VInt 0)
    = [Py.VStr "-e"; Py.VStr "WORKERS="]
  ∧ flag_pair "-l" "app" (Py.VStr "debug", Py.VBool false)
    = [Py.VStr "-l"; Py.VStr "debug="].
Proof.
  split.
  - exact (falsy_value_is_empty "-e" "app" (Py.VStr "WORKERS") (Py.VInt 0) eq_refl).
  - exact (falsy_value_is_empty "-l" "app" (Py.VStr "debug") (Py.VBool false) eq_refl).
Defined.

Lemma word_prefix_split (s : string) :
  s = (word_prefix s).1 +:+ (word_prefix s).2.
Proof.
  induction s as [|c s IH]; [done|]. cbn [word_prefix].
  destruct (is_word c); [|done].
  destruct (word_prefix s) as [run rest]. cbn in *. by rewrite append_cons, <- IH.
Qed.

Lemma word_prefix_is_word (s : string) :
  forallb is_word (Str.chars (word_prefix s).1) = true.
Proof.
  induction s as [|c s IH]; [done|]. cbn [word_prefix].
  destruct (is_word c) eqn:Hc; [|done].
  destruct (word_prefix s) as [run rest]. cbn in *. by rewrite Hc, IH.
Qed.

(** When the replacer gives back the text it matched, the text is
    unchanged. *)
Lemma re_sub_same (f : string → string * list string) (s : string) :
  (∀ name, (f name).1 = "$" +:+ name) → (re_sub f s).1 = s.
Proof.
  intros Hf. remember (String.length s) as n eqn:Hn.
  revert s Hn. induction (lt_wf n) as [n _ IH]. intros s ->.
  destruct s as [|c s]; [done|]. rewrite re_sub_cons.
  pose proof (word_prefix_length s) as Hlen.
  pose proof (word_prefix_split s) as Hsplit.
  destruct (ascii_dec c "$") as [->|_].
  - destruct (word_prefix s) as [run rest]. cbn [fst snd] in *.
    destruct run as [|x run].
    + specialize (IH (String.length s) ltac:(simpl; lia) s eq_refl).
      destruct (re_sub f s). cbn in *. by rewrite IH.
    + specialize (IH (String.length rest) ltac:(simpl; lia) rest eq_refl).
      specialize (Hf (String x run)).
      destruct (f (String x run)) as [text pr1].
      destruct (re_sub f rest) as [out pr2]. cbn [fst snd] in *.
      by rewrite Hf, IH, Hsplit, append_cons.
  - specialize (IH (String.length s) ltac:(simpl; lia) s eq_refl).
    destruct (re_sub f s). cbn in *. by rewrite IH.
Qed.

(** X9.  With an empty parameter set [substitute] returns the text
    unchanged, whatever tokens it holds: an unknown token is put back
    exactly as it was written. *)
Theorem substitute_empty_keeps_text (s : string) : (substitute ∅ s).1 = s.
Proof.
  apply re_sub_same. intros name. unfold replacer. by rewrite lookup_empty.
Qed.

Lemma re_sub_printed (f : string → string * list string) (P : string → Prop)
    (s : string) :
  (∀ name line, is_identifier name = true → line ∈ (f name).2 → P line) →
  ∀ line, line ∈ (re_sub f s).2 → P line.
Proof.
  intros Hf. remember (String.length s) as n eqn:Hn.
  revert s Hn. induction (lt_wf n) as [n _ IH]. intros s ->.
  destruct s as [|c s]; [by intros line ?%elem_of_nil|]. rewrite re_sub_cons.
  pose proof (word_prefix_length s) as Hlen.
  pose proof (word_prefix_is_word s) as Hword.
  destruct (ascii_dec c "$") as [->|_].
  - destruct (word_prefix s) as [run rest]. cbn [fst snd] in *.
    destruct run as [|x run].
    + specialize (IH (String.length s) ltac:(simpl; lia) s eq_refl).
      by destruct (re_sub f s).
    + specialize (IH (String.length rest) ltac:(simpl; lia) rest eq_refl).
      specialize (Hf (String x run)).
      destruct (f (String x run)) as [text pr1].
      destruct (re_sub f rest) as [out pr2]. cbn [fst snd] in *.
      intros line [H|H]%elem_of_app; [by eapply Hf|by apply IH].
  - specialize (IH (String.length s) ltac:(simpl; lia) s eq_refl).
    by destruct (re_sub f s).
Qed.

(** X10.  [substitute] warns only about what is missing: every line it
    prints is the warning for an identifier (one or more word
    characters) that is not a key of the parameter set. *)
Theorem substitute_warns_about_missing (params : gmap string string)
    (s line : string) :
  line ∈ (substitute params s).2 →
  ∃ name, line = warn_missing name
          ∧ is_identifier name = true
          ∧ params !! name = None.
Proof.
  revert line. apply re_sub_printed. intros name line Hid. unfold replacer.
  destruct (params !! name) eqn:Hp; cbn; [by intros ?%elem_of_nil|].
  intros ->%list_elem_of_singleton. by exists name.
Qed.

Lemma substitute_warns_about_missing_witness :
  ∃ name, warn_missing "port" = warn_missing name
          ∧ is_identifier name = true
          ∧ ({[ "host" := "db" ]} : gmap string string) !! name = None.
Proof.
  apply (substitute_warns_about_missing {[ "host" := "db" ]} "$host:$port").
  vm_compute. apply list_elem_of_here.
Defined.

(** ** Runs of [main] *)

Lemma main_after_load (w : world) (args : arguments) :
  main w args =
  match ending (load_config w (arg_config_name args) (arg_template_root args)) with
  | Returned parts =>
      let rest :=
        cid ← find_instance w (Path.stem (arg_config_name args));
        match arg_command args with
        | Build | Rebuild | Start | StartCmd =>
            build_and_start w (arg_command args)
              (Path.stem (arg_config_name args)) parts cid
        | Restart =>
            call_if w (Py.truthy cid) [Py.VStr "docker"; Py.VStr "restart"; cid]
        | Stop =>
            call_if w (Py.truthy cid) [Py.VStr "docker"; Py.VStr "stop"; cid]
        | Enter =>
            subprocess_check_call w
              (map Py.VStr ["docker"; "exec"; "-it";
                            Path.stem (arg_config_name args); "/bin/bash"; "--login"])
        end in
      (trace (load_config w (arg_config_name args) (arg_template_root args))
         ++ trace rest, ending rest)
  | Raised e =>
      (trace (load_config w (arg_config_name args) (arg_template_root args)),
       Raised e)
  | Exited n =>
      (trace (load_config w (arg_config_name args) (arg_template_root args)),
       Exited n)
  end.
Proof. unfold main. by rewrite bind_run. Qed.



(** X12.  A config file that parses, but not to a mapping (an empty file
    parses to null), is not reported as a config error: the lookup of
    [templates] raises an attribute error that nothing catches, and
    nothing is printed. *)
Theorem config_not_mapping_raises (w : world) (args : arguments)
    (data : string) (yml : Py.value) :
  file w (arg_config_name args) = Readable data →
  safe_load w data = inr yml →
  (∀ d, yml ≠ Py.VDict d) →
  main w args = ([], Raised AttributeError).
Proof.
  intros Hfile Hload Hyml. rewrite main_after_load.
  unfold load_config, read_config. rewrite Hfile, Hload.
  destruct yml; try reflexivity. by destruct (Hyml entries).
Qed.

Lemma config_not_mapping_raises_witness :
  main (world_of [("app.yml", Readable "")] [("", Py.VNone)] "")
       (Scenario.run Build)
  = ([], Raised AttributeError).
Proof.
  apply (config_not_mapping_raises
           (world_of [("app.yml", Readable "")] [("", Py.VNone)] "")
           (Scenario.run Build) "" Py.VNone eq_refl eq_refl).
  intros d H. discriminate H.
Defined.

(** X13.  Whenever [load_config] does not return, [main] does nothing
    more: it has the events of the loader and ends as the loader ended,
    for every command. *)
Theorem load_failure_ends_main (w : world) (args : arguments) :
  (∀ parts,
     ending (load_config w (arg_config_name args) (arg_template_root args))
     ≠ Returned parts) →
  trace (main w args)
    = trace (load_config w (arg_config_name args) (arg_template_root args))
  ∧ match ending (load_config w (arg_config_name args) (arg_template_root args)) with
    | Returned _ => False
    | Raised e => ending (main w args) = Raised e
    | Exited n => ending (main w args) = Exited n
    end.
Proof.
  intros H. rewrite main_after_load.
  destruct (ending (load_config w _ _)) as [parts|e|n]; [by destruct (H parts)|done..].
Qed.

Lemma load_failure_ends_main_witness :
  trace (main Scenario.no_template (Scenario.run Rebuild))
    = [Print ("Error: template 'web.yml' not found in any of the "
                +:+ "template paths: ['.', './discourse_docker']")]
  ∧ ending (main Scenario.no_template (Scenario.run Rebuild)) = Exited 1.
Proof.
  apply (load_failure_ends_main Scenario.no_template (Scenario.run Rebuild)).
  intros parts H. discriminate H.
Defined.

(** X14.  [stop] and [restart] only talk to the engine: after the
    loader, the run queries [docker ps] and, when the stripped output is
    not empty, calls [docker stop] (or [docker restart]) on it; when it is
    empty nothing else happens.  The documents are not composed and no
    artifact is written. *)
Theorem stop_restart_run (w : world) (args : arguments) (sub : string)
    (tr0 : list event) (parts : list string) (out : string) :
  (arg_command args = Stop ∧ sub = "stop")
  ∨ (arg_command args = Restart ∧ sub = "restart") →
  load_config w (arg_config_name args) (arg_template_root args)
    = (tr0, Returned parts) →
  check_output w ["docker"; "ps"; "-q"; "-f";
                  "name=" +:+ Path.stem (arg_config_name args)] = Some out →
  main w args =
    let query := Exec ["docker"; "ps"; "-q"; "-f";
                       "name=" +:+ Path.stem (arg_config_name args)] in
    let call := ["docker"; sub; Str.strip out] in
    if String.eqb (Str.strip out) "" then (tr0 ++ [query], Returned tt)
    else (tr0 ++ [query; Exec call],
          if check_call w call then Returned tt else Raised CalledProcessError).
Proof.
  intros Hcmd Hload Hps. rewrite main_after_load, Hload. cbv zeta.
  cbn [ending trace fst snd]. rewrite bind_run, find_instance_run. cbv zeta.
  rewrite Hps. cbn [ending trace fst snd].
  destruct Hcmd as [[-> ->]|[-> ->]]; unfold call_if; rewrite check_call_run;
    cbn [Py.truthy Py.as_strs mbind result_bind];
    destruct (String.eqb (Str.strip out) ""); by cbn.
Qed.

Lemma stop_restart_run_witness :
  main Scenario.broken_template (Scenario.run Stop)
  = ([Exec ["docker"; "ps"; "-q"; "-f"; "name=app"];
      Exec ["docker"; "stop"; "abc123"]], Returned tt)
  ∧ main Scenario.override (Scenario.run Restart)
    = ([Exec ["docker"; "ps"; "-q"; "-f"; "name=app"]], Returned tt).
Proof.
  split.
  - exact (stop_restart_run Scenario.broken_template (Scenario.run Stop) "stop"
             [] ["hack: true"; Scenario.broken_yml; Scenario.plain_yml] "abc123"
             (or_introl (conj eq_refl eq_refl)) eq_refl eq_refl).
  - exact (stop_restart_run Scenario.override (Scenario.run Restart) "restart"
             [] ["hack: true"; Scenario.web_yml; Scenario.app_yml] ""
             (or_intror (conj eq_refl eq_refl)) eq_refl eq_refl).
Defined.

(** X15.  Whatever the command, when the [docker ps] query fails the run
    ends there with the uncaught error of the call: nothing is stopped,
    composed, written or started. *)
Theorem query_failure_ends_main (w : world) (args : arguments)
    (tr0 : list event) (parts : list string) :
  load_config w (arg_config_name args) (arg_template_root args)
    = (tr0, Returned parts) →
  check_output w ["docker"; "ps"; "-q"; "-f";
                  "name=" +:+ Path.stem (arg_config_name args)] = None →
  main w args
  = (tr0 ++ [Exec ["docker"; "ps"; "-q"; "-f";
                   "name=" +:+ Path.stem (arg_config_name args)]],
     Raised CalledProcessError).
Proof.
  intros Hload Hps. rewrite main_after_load, Hload. cbv zeta.
  cbn [ending trace fst snd]. rewrite bind_run, find_instance_run. cbv zeta.
  by rewrite Hps.
Qed.

Lemma query_failure_ends_main_witness :
  let w := {| file := file Scenario.override;
              safe_load := safe_load Scenario.override;
              dump := Py.repr; abspath := fun p => p;
              check_output := fun _ => None;
              check_call := fun _ => true;
              can_write := fun _ => true |} in
  main w (Scenario.run Start)
  = ([Exec ["docker"; "ps"; "-q"; "-f"; "name=app"]], Raised CalledProcessError).
Proof.
  exact (query_failure_ends_main
           {| file := file Scenario.override;
              safe_load := safe_load Scenario.override;
              dump := Py.repr; abspath := fun p => p;
              check_output := fun _ => None;
              check_call := fun _ => true;
              can_write := fun _ => true |}
           (Scenario.run Start) []
           ["hack: true"; Scenario.web_yml; Scenario.app_yml] eq_refl eq_refl).
Defined.

(** X16.  A [rebuild] stops the running container before it composes the
    documents: when the composition then fails, the run ends with that
    error, the container has been stopped and is not started again, and
    no artifact has been written. *)
Theorem failed_rebuild_leaves_stopped (w : world) (args : arguments)
    (tr0 : list event) (parts : list string) (out : string) (e : exn) :
  arg_command args = Rebuild →
  load_config w (arg_config_name args) (arg_template_root args)
    = (tr0, Returned parts) →
  check_output w ["docker"; "ps"; "-q"; "-f";
                  "name=" +:+ Path.stem (arg_config_name args)] = Some out →
  Str.strip out ≠ "" →
  check_call w ["docker"; "stop"; Str.strip out] = true →
  compose w (Path.stem (arg_config_name args)) parts = Raise e →
  main w args
  = (tr0 ++ [Exec ["docker"; "ps"; "-q"; "-f";
                   "name=" +:+ Path.stem (arg_config_name args)];
             Exec ["docker"; "stop"; Str.strip out]],
     Raised e).
Proof.
  intros Hcmd Hload Hps Hout Hstop Hcompose.
  rewrite main_after_load, Hload. cbv zeta.
  cbn [ending trace fst snd]. rewrite bind_run, find_instance_run. cbv zeta.
  rewrite Hps, Hcmd. cbn [ending trace fst snd].
  unfold build_and_start, call_if. rewrite Hcompose, bind_run, check_call_run.
  cbn [Py.truthy Py.as_strs mbind result_bind].
  apply String.eqb_neq in Hout. rewrite Hout, Hstop. by cbn.
Qed.

Lemma failed_rebuild_leaves_stopped_witness :
  main Scenario.broken_template (Scenario.run Rebuild)
  = ([Exec ["docker"; "ps"; "-q"; "-f"; "name=app"];
      Exec ["docker"; "stop"; "abc123"]], Raised YAMLError).
Proof.
  apply (failed_rebuild_leaves_stopped Scenario.broken_template
           (Scenario.run Rebuild) []
           ["hack: true"; Scenario.broken_yml; Scenario.plain_yml] "abc123"
           YAMLError eq_refl eq_refl eq_refl); [|reflexivity..].
  intros H. discriminate H.
Defined.

Lemma trace_all_call_args (P : event → Prop) (w : world) (argv : list Py.value) :
  (∀ args, Py.as_strs argv = Ok args → P (Exec args)) →
  trace_all P (subprocess_check_call w argv).
Proof.
  intros H e. rewrite check_call_run.
  destruct (Py.as_strs argv) as [args|x]; cbn;
    [intros ->%list_elem_of_singleton; by apply H|by intros ?%elem_of_nil].
Qed.

Lemma trace_all_output_args (P : event → Prop) (w : world) (args : list string) :
  P (Exec args) → trace_all P (subprocess_check_output w (map Py.VStr args)).
Proof.
  intros H e. unfold subprocess_check_output. rewrite as_strs_str. cbn.
  destruct (check_output w args); cbn; by intros ->%list_elem_of_singleton.
Qed.

Lemma trace_all_find_instance (P : event → Prop) (w : world) (config_name : string) :
  P (Exec ["docker"; "ps"; "-q"; "-f"; "name=" +:+ config_name]) →
  trace_all P (find_instance w config_name).
Proof.
  intros H. unfold find_instance.
  apply trace_all_bind; [by apply trace_all_output_args|].
  intros; apply trace_all_ret.
Qed.

Lemma trace_all_loader (P : event → Prop) (w : world) (config_file : string)
    (roots : list string) :
  (∀ line, P (Print line)) → trace_all P (load_config w config_file roots).
Proof.
  intros H. eapply trace_all_impl; [|apply load_config_events].
  intros [] ?; by try apply H.
Qed.

(** X17.  [start-cmd] starts nothing: the only engine call of such a run
    is the [docker ps] query.  (It does compose the documents and write
    both artifacts before it prints the command.) *)
Theorem start_cmd_only_queries (w : world) (args : arguments) :
  arg_command args = StartCmd → trace_all only_ps (main w args).
Proof.
  intros Hcmd. unfold main.
  apply trace_all_bind; [by apply trace_all_loader|]. intros parts _.
  apply trace_all_bind; [apply trace_all_find_instance; by eexists|].
  intros cid _. rewrite Hcmd. unfold build_and_start, call_if.
  apply trace_all_bind; [apply trace_all_ret|]. intros _ _.
  apply trace_all_bind; [apply trace_all_lift|]. intros c _.
  apply trace_all_bind; [by apply trace_all_write|]. intros _ _.
  apply trace_all_bind; [by apply trace_all_write|]. intros _ _.
  apply trace_all_bind; [apply trace_all_ret|]. intros _ _.
  apply trace_all_bind; [apply trace_all_lift|]. intros line _.
  by apply trace_all_print.
Qed.

Lemma start_cmd_only_queries_witness :
  trace_all only_ps (main Scenario.override (Scenario.run StartCmd)).
Proof.
  exact (start_cmd_only_queries Scenario.override (Scenario.run StartCmd) eq_refl).
Defined.

(** X18.  [build] builds and nothing else: such a run never calls
    [docker run], [docker stop] or [docker restart]; a container that is
    running is left alone. *)
Theorem build_touches_no_container (w : world) (args : arguments) :
  arg_command args = Build →
  trace_all (fun e => not_subcommand "run" e ∧ not_subcommand "stop" e
                      ∧ not_subcommand "restart" e)
    (main w args).
Proof.
  intros Hcmd. unfold main.
  apply trace_all_bind; [by apply trace_all_loader|]. intros parts _.
  apply trace_all_bind; [by apply trace_all_find_instance|].
  intros cid _. rewrite Hcmd. unfold build_and_start.
  apply trace_all_bind; [apply trace_all_ret|]. intros _ _.
  apply trace_all_bind; [apply trace_all_lift|]. intros c _.
  apply trace_all_bind; [by apply trace_all_write|]. intros _ _.
  apply trace_all_bind; [by apply trace_all_write|]. intros _ _.
  apply trace_all_bind; [|intros; apply trace_all_ret].
  intros e. rewrite build_call_run. cbv zeta.
  destruct (check_call w _); cbn; by intros ->%list_elem_of_singleton.
Qed.

Lemma build_touches_no_container_witness :
  trace_all (fun e => not_subcommand "run" e ∧ not_subcommand "stop" e
                      ∧ not_subcommand "restart" e)
    (main Scenario.broken_template (Scenario.run Build)).
Proof.
  exact (build_touches_no_container Scenario.broken_template
           (Scenario.run Build) eq_refl).
Defined.

Lemma stop_call_events (P : event → Prop) (w : world) (cond : bool)
    (cid : Py.value) :
  (∀ s, P (Exec ["docker"; "stop"; s])) →
  trace_all P (call_if w cond [Py.VStr "docker"; Py.VStr "stop"; cid]).
Proof.
  intros H. destruct cond; [|apply trace_all_ret].
  apply trace_all_call_args. intros args. destruct cid; cbn; try done.
  intros [= <-]. apply H.
Qed.

(** X19.  When the [init] artifact cannot be written, a composing command
    ends with an uncaught error and does nothing after it: the [build]
    artifact is not written either, and the engine is neither asked to
    build nor to run. *)
Theorem unwritable_init_stops (w : world) (args : arguments) :
  composes (arg_command args) = true →
  can_write w (Path.join DKR_PATH "init") = false →
  trace_all (fun e => not_write e ∧ not_subcommand "build" e
                      ∧ not_subcommand "run" e)
    (main w args)
  ∧ ending (main w args) ≠ Returned tt.
Proof.
  intros Hcmd Hinit. split.
  - unfold main.
    apply trace_all_bind; [by apply trace_all_loader|]. intros parts _.
    apply trace_all_bind; [by apply trace_all_find_instance|]. intros cid _.
    destruct (arg_command args); try done; unfold build_and_start;
      (apply trace_all_bind; [by apply stop_call_events|]; intros _ _;
       apply trace_all_bind; [apply trace_all_lift|]; intros c _;
       apply trace_all_bind;
         [unfold write_file; rewrite Hinit; intros e; by intros ?%elem_of_nil|];
       unfold write_file; rewrite Hinit; by intros _ [=]).
  - rewrite main_after_load.
    destruct (ending (load_config w _ _)) as [parts| |]; [|done..].
    cbv zeta. cbn [ending snd]. rewrite bind_run, find_instance_run. cbv zeta.
    destruct (check_output w _) as [out|]; cbn [ending trace fst snd]; [|done].
    assert (Hbs : ∀ cmd cid,
      ending (build_and_start w cmd (Path.stem (arg_config_name args)) parts cid)
      ≠ Returned tt).
    { intros cmd cid. unfold build_and_start. rewrite bind_run.
      destruct (ending (call_if w _ _)); cbn [ending snd]; [|done..].
      rewrite bind_run. destruct (compose w _ parts); cbn [lift ending snd]; [|done].
      rewrite bind_run. unfold write_file at 1 2. by rewrite Hinit. }
    destruct (arg_command args); try done; apply Hbs.
Qed.

Lemma unwritable_init_stops_witness :
  let w := {| file := file Scenario.override;
              safe_load := safe_load Scenario.override;
              dump := Py.repr; abspath := fun p => p;
              check_output := fun _ => Some "abc123";
              check_call := fun _ => true;
              can_write := fun _ => false |} in
  trace_all (fun e => not_write e ∧ not_subcommand "build" e
                      ∧ not_subcommand "run" e)
    (main w (Scenario.run Rebuild))
  ∧ ending (main w (Scenario.run Rebuild)) ≠ Returned tt.
Proof.
  exact (unwritable_init_stops
           {| file := file Scenario.override;
              safe_load := safe_load Scenario.override;
              dump := Py.repr; abspath := fun p => p;
              check_output := fun _ => Some "abc123";
              check_call := fun _ => true;
              can_write := fun _ => false |}
           (Scenario.run Rebuild) eq_refl eq_refl).
Defined.

Lemma resolve_absolute (w : world) (root : string) (roots : list string)
    (template : string) :
  Str.startswith "/" template = true →
  resolve w (root :: roots) template
  = match file w template with
    | Readable content => Some content
    | _ => None
    end.
Proof.
  intros Habs. revert root. induction roots as [|r roots IH]; intros root;
    cbn [resolve]; unfold Path.join; rewrite Habs.
  - by destruct (file w template).
  - specialize (IH r). cbn [resolve] in IH. unfold Path.join in IH.
    rewrite Habs in IH. rewrite IH. by destruct (file w template).
Qed.

(** X20.  A template name that is an absolute path is not searched in
    the roots: whatever the roots are (and there is at least one), the
    template is the file at that very path, or is not found. *)
Theorem absolute_template_ignores_roots (w : world) (root : string)
    (roots : list string) (template : string) :
  Str.startswith "/" template = true →
  ending (find_template w (Py.VStr template) (root :: roots))
  = Returned (match file w template with
              | Readable content => Some content
              | _ => None
              end).
Proof.
  intros Habs. by rewrite find_template_resolve, resolve_absolute.
Qed.

Lemma absolute_template_ignores_roots_witness :
  ending (find_template
            (world_of [("/etc/web.yml", Readable "a: 1"); ("./web.yml", Readable "b: 2")]
                      [] "")
            (Py.VStr "/etc/web.yml") default_template_root)
  = Returned (Some "a: 1").
Proof.
  exact (absolute_template_ignores_roots
           (world_of [("/etc/web.yml", Readable "a: 1"); ("./web.yml", Readable "b: 2")]
                     [] "")
           "." ["./discourse_docker"] "/etc/web.yml" eq_refl).
Defined.

(** X21.  A template path that exists but cannot be read is reported and
    skipped: after roots that do not hold the template, a root where
    reading fails makes the loader print
    [Error reading template <path>: <error>] and go on with the roots
    that follow. *)
Theorem unreadable_template_skipped (w : world) (before : list string)
    (root : string) (after : list string) (template err : string) :
  Forall (fun r => file w (Path.join r template) = Missing) before →
  file w (Path.join root template) = Unreadable err →
  find_template w (Py.VStr template) (before ++ root :: after)
  = (Print ("Error reading template " +:+ Path.join root template
              +:+ ": " +:+ err)
       :: trace (find_template w (Py.VStr template) after),
     ending (find_template w (Py.VStr template) after)).
Proof.
  intros Hbefore Hroot. induction Hbefore as [|r before Hr _ IH].
  - cbn [app find_template]. rewrite bind_run.
    cbn [ending trace mret M_ret fst snd app]. rewrite Hroot, bind_run. done.
  - cbn [app find_template]. rewrite bind_run.
    cbn [ending trace mret M_ret fst snd app]. by rewrite Hr, IH.
Qed.

Lemma unreadable_template_skipped_witness :
  let w := world_of [("./web.yml", Unreadable "[Errno 13] Permission denied");
                     ("./discourse_docker/web.yml", Readable "a: 1")] [] "" in
  find_template w (Py.VStr "web.yml") (["/opt"] ++ "." :: ["./discourse_docker"])
  = ([Print "Error reading template ./web.yml: [Errno 13] Permission denied"],
     Returned (Some "a: 1")).
Proof.
  apply (unreadable_template_skipped
           (world_of [("./web.yml", Unreadable "[Errno 13] Permission denied");
                      ("./discourse_docker/web.yml", Readable "a: 1")] [] "")
           ["/opt"] "." ["./discourse_docker"] "web.yml"
           "[Errno 13] Permission denied").
  - repeat constructor.
  - reflexivity.
Defined.

Lemma add_templates_shape (w : world) (roots : list string)
    (templates : list Py.value) (input_parts out : list string) :
  ending (add_templates w roots templates input_parts) = Returned out →
  ∃ contents, out = input_parts ++ contents
              ∧ length contents = length templates.
Proof.
  revert input_parts. induction templates as [|t templates IH]; intros input_parts.
  - cbn. intros [= <-]. exists []. by rewrite (right_id_L [] (++)).
  - cbn [add_templates]. rewrite bind_run.
    destruct (ending (find_template w t roots)) as [[content|]| |]; try done.
    cbn [ending snd]. intros (contents & -> & Hlen)%IH.
    exists (content :: contents). rewrite <- (assoc_L (++)). cbn.
    by rewrite Hlen.
Qed.

(** X22.  [load_config] returns only when the config file was read and
    parsed and every entry of its [templates] was found; the parts it
    returns are then [hack: true], one part for each entry, and the text
    of the config file, so never fewer than two. *)
Theorem load_config_shape (w : world) (config_file : string)
    (roots : list string) (parts : list string) :
  ending (load_config w config_file roots) = Returned parts →
  ∃ data yml templates contents,
    file w config_file = Readable data
    ∧ safe_load w data = inr yml
    ∧ Py.get yml "templates" (Py.VList []) ≫= Py.iter = Ok templates
    ∧ length contents = length templates
    ∧ parts = "hack: true" :: contents ++ [data].
Proof.
  unfold load_config, read_config.
  destruct (file w config_file) as [|err|data] eqn:Hfile; try done.
  destruct (safe_load w data) as [msg|yml] eqn:Hload; try done.
  rewrite bind_run. cbn [ending trace mret M_ret fst snd].
  rewrite bind_run.
  destruct (Py.get yml "templates" (Py.VList [])) as [ts|] eqn:Hget;
    cbn [lift ending trace fst snd]; [|done].
  rewrite bind_run.
  destruct (Py.iter ts) as [templates|] eqn:Hiter;
    cbn [lift ending trace fst snd]; [|done].
  rewrite bind_run.
  destruct (ending (add_templates w roots templates ["hack: true"]))
    as [out| |] eqn:Hadd; cbn [ending trace mret M_ret fst snd]; try done.
  intros [= <-]. apply add_templates_shape in Hadd as (contents & -> & Hlen).
  exists data, yml, templates, contents.
  split; [done|]. split; [done|]. split; [by rewrite Hget|]. by split.
Qed.

Lemma load_config_shape_witness :
  ∃ data yml templates contents,
    file Scenario.second_root "app.yml" = Readable data
    ∧ safe_load Scenario.second_root data = inr yml
    ∧ Py.get yml "templates" (Py.VList []) ≫= Py.iter = Ok templates
    ∧ length contents = length templates
    ∧ ["hack: true"; Scenario.web_yml; Scenario.app_yml]
      = "hack: true" :: contents ++ [data].
Proof.
  exact (load_config_shape Scenario.second_root "app.yml" default_template_root
           ["hack: true"; Scenario.web_yml; Scenario.app_yml] eq_refl).
Defined.






